(** * geomap: the U.S. state choropleth script, [plot_us_states_map.py]

    A shallow embedding of the two functions of the script,
    [get_us_shapefile] (lines 28-49) and [plot_us_map] (lines 54-127),
    and the properties of the acquisition, join, colouring and labelling
    steps.

    Conventions of the embedding.
    - The script is effectful (file system, network, console, figure).  Its
      effects are threaded through a state-and-exception monad [M] over a
      [World]; every I/O call appends an [event] to the world's log.
    - Library calls (os, requests, zipfile, pandas, geopandas, matplotlib)
      are modelled by their documented behaviour at the call sites of the
      script, each under the name it has there.
    - Floating-point numbers are idealised as rationals [Q]; a missing
      value (NaN / None) is [None].  What 64-bit floats add to this is
      not modelled: the rounding of a cell when it is parsed or when the
      join turns a column of integers into floats, infinities, overflow.
    - The input table is the table [pd.read_csv] returns.  Its key column
      'State' holds names, numbers or nothing, and pandas types it by
      what it holds; its other columns are numeric.  The boundary table
      has the columns NAME, STUSPS and geometry, and possibly further
      attributes.  A column name on both sides of the join is renamed by
      pandas, which makes the later look-ups by name fail;
      [merged_columns] keeps track.
    - Of the figure, the model keeps what the script computes: the filled
      polygons, the colour bar, the labels and the title.  Fonts, sizes,
      the axes and the resolution are constants of the calls and are left
      out. *)

From Stdlib Require Import List String Ascii Bool Arith ZArith QArith Qround Qabs Lia.
From Stdlib Require Import DecimalString.
Import ListNotations.

Set Warnings "-register-all".

Local Open Scope string_scope.
Local Open Scope list_scope.

(** ** Python strings and POSIX paths *)

Module Py.

(** [s.endswith(suffix)] *)
Definition endswith (s suffix : string) : bool :=
  let n := String.length s in
  let m := String.length suffix in
  (m <=? n)%nat && String.eqb (substring (n - m) m s) suffix.

(** [s.startswith(prefix)] *)
Definition startswith (s pre : string) : bool := String.prefix pre s.

(** [posixpath.join(a, b)] *)
Definition path_join (a b : string) : string :=
  if startswith b "/" then b
  else if String.eqb a "" || endswith a "/" then a ++ b
  else a ++ "/" ++ b.

(** [s.replace(old, new)] for one-character [old] and [new] *)
Fixpoint replace (old new : ascii) (s : string) : string :=
  match s with
  | EmptyString => EmptyString
  | String c rest =>
      String (if Ascii.eqb c old then new else c) (replace old new rest)
  end.

(** The part of [s] after the last [c], if [c] occurs *)
Fixpoint after_last (c : ascii) (s : string) : option string :=
  match s with
  | EmptyString => None
  | String a rest =>
      match after_last c rest with
      | Some t => Some t
      | None => if Ascii.eqb a c then Some rest else None
      end
  end.

Fixpoint lstrip_dots (s : string) : string :=
  match s with
  | String "." rest => lstrip_dots rest
  | _ => s
  end.

(** [s.rstrip('.')] *)
Fixpoint rstrip_dots (s : string) : string :=
  match s with
  | EmptyString => EmptyString
  | String a rest =>
      match rstrip_dots rest with
      | EmptyString => if Ascii.eqb a "." then EmptyString else String a EmptyString
      | t => String a t
      end
  end.

(** [os.path.splitext(p)[1][1:]]: what follows the last dot of the last
    path component, leading dots of the component not counting. *)
Definition extension (p : string) : string :=
  let base := match after_last "/" p with Some b => b | None => p end in
  match after_last "." (lstrip_dots base) with
  | Some e => e
  | None => EmptyString
  end.

(** [s.lower()], on the letters A-Z *)
Fixpoint lower (s : string) : string :=
  match s with
  | EmptyString => EmptyString
  | String c rest =>
      let n := nat_of_ascii c in
      String (if (65 <=? n)%nat && (n <=? 90)%nat then ascii_of_nat (n + 32) else c)
             (lower rest)
  end.

End Py.

(** ** Data model *)

(** A polygon is kept as its ring of vertices. *)
Definition Polygon := list (Q * Q).

(** One boundary record of the shapefile. *)
Record GeoRow := mkGeoRow {
  NAME     : option string;
  STUSPS   : string;
  geometry : Polygon
}.

(** The boundary table as [gpd.read_file] returns it: its records, and
    the names of the attribute columns it has besides NAME, STUSPS and
    geometry. *)
Record GeoDataFrame := mkGeoDataFrame {
  attributes : list string;
  records    : list GeoRow
}.

(** A cell of the key column 'State' as the table holds it: the text
    of a name, a number, or nothing.  A text is a name, not a numeral. *)
Inductive key :=
| Text (s : string)
| Number (q : Q)
| Missing.

(** One row of the input table: its 'State' cell and its numeric cells
    by column name. *)
Record DataRow := mkDataRow {
  State : key;
  cells : list (string * option Q)
}.

(** The input table as [pd.read_csv] returns it. *)
Record DataFrame := mkDataFrame {
  columns : list string;
  rows    : list DataRow
}.

(** ** The world: file system, network, log *)

(** Directory entries, in the order [os.scandir] lists them.  A file
    carries the boundary table it holds when it parses as a shapefile. *)
Inductive entry :=
| File (name : string) (shape : option GeoDataFrame)
| Dir (name : string) (children : list entry).

(** What lies at the cache path. *)
Inductive node :=
| Absent
| RegularFile
| Directory (children : list entry).

(** The body served at the archive URL. *)
Inductive archive :=
| NotAZip
| Zip (members : list entry).

Inductive exn :=
| ValueError
| KeyError (column : string)
| TypeError
| AttributeError
| FileNotFoundError
| PermissionError
| UnicodeDecodeError
| ConnectionError
| BadZipFile
| DataSourceError.

Inductive result (A : Type) :=
| Ok (a : A)
| Raise (e : exn).
Arguments Ok {A} a.
Arguments Raise {A} e.

Inductive color :=
| RGBA (r g b a : Q)
| Named (name : string).

Record Annotation := mkAnnotation {
  text       : string;
  xy         : Polygon;      (* the polygon whose centroid anchors the text *)
  fontweight : string;
  fontcolor  : string
}.

(** [Normalize(vmin=vmin, vmax=vmax)] *)
Record Normalize := mkNormalize {
  vmin : option Q;
  vmax : option Q
}.

(** The colour bar: the scale it was made from, the range it shows and
    its label.  [plt.colorbar] widens a range that is degenerate or not
    a number; the regions have their colours by then. *)
Record Colorbar := mkColorbar {
  cb_norm   : Normalize;
  cb_limits : Q * Q;
  cb_label  : string
}.

Record Figure := mkFigure {
  patches     : list (Polygon * color);
  colorbar    : Colorbar;
  annotations : list Annotation;
  title       : string
}.

Inductive event :=
| PathExists (path : string)
| Makedirs (path : string)
| Print (msg : string)
| HttpGet (url : string)
| ExtractAll (path : string)
| Walk (path : string)
| ReadCsv (path : string)
| ReadFile (path : string)
| Savefig (path : string)
| PltClose.

Record World := mkWorld {
  home   : string;                         (* os.path.expanduser("~") *)
  cache  : node;                           (* what lies at ~/.us_state_geo *)
  remote : option archive;                 (* None: the request fails *)
  faulty : option (list entry);            (* Some written: the extraction
                                              breaks off with these on disk *)
  tables : list (string * DataFrame);      (* readable input files *)
  image_as_csv : string -> result DataFrame;
                                           (* what read_csv makes of an image
                                              written at a path *)
  unwritable : list (string * exn);        (* paths that cannot be written,
                                              with the error of the attempt *)
  saved  : list (string * Figure);         (* images written so far; an image
                                              replaces what its path held *)
  log    : list event                      (* I/O performed, oldest first *)
}.

(** ** State and exception monad *)

Definition M (A : Type) : Type := World -> World * result A.

Definition ret {A} (a : A) : M A := fun w => (w, Ok a).

Definition raise {A} (e : exn) : M A := fun w => (w, Raise e).

Definition bind {A B} (m : M A) (k : A -> M B) : M B :=
  fun w =>
    match m w with
    | (w', Ok a) => k a w'
    | (w', Raise e) => (w', Raise e)
    end.

Declare Scope py_scope.
Delimit Scope py_scope with py.
Notation "x <- m ;; k" := (bind m (fun x => k))
  (at level 100, m at next level, right associativity) : py_scope.
Notation "m ;;; k" := (bind m (fun _ => k))
  (at level 100, right associativity) : py_scope.

Definition emit (e : event) : M unit :=
  fun w => (mkWorld (home w) (cache w) (remote w) (faulty w) (tables w)
                    (image_as_csv w) (unwritable w) (saved w)
                    (log w ++ [e]), Ok tt).

Definition set_cache (c : node) : M unit :=
  fun w => (mkWorld (home w) c (remote w) (faulty w) (tables w)
                    (image_as_csv w) (unwritable w) (saved w) (log w), Ok tt).

Definition get {A} (f : World -> A) : M A := fun w => (w, Ok (f w)).

(** ** os, requests, zipfile *)

Module Os.

(** The cache path is the only place of the file system the script
    touches; the primitives below act on it. *)

(** [os.path.exists(path)] *)
Definition path_exists (path : string) : M bool :=
  (emit (PathExists path) ;;;
   c <- get cache ;;
   ret (match c with Absent => false | _ => true end))%py.

(** [os.makedirs(path, exist_ok=True)], called on an absent path *)
Definition makedirs (path : string) : M unit :=
  (emit (Makedirs path) ;;;
   c <- get cache ;;
   match c with
   | Absent => set_cache (Directory [])
   | _ => ret tt
   end)%py.

Definition dirnames (es : list entry) : list string :=
  flat_map (fun e => match e with Dir n _ => [n] | File _ _ => [] end) es.

Definition filenames (es : list entry) : list string :=
  flat_map (fun e => match e with File n _ => [n] | Dir _ _ => [] end) es.

Definition walk_item : Type := string * list string * list string.

(** [os.walk(top)], top-down: the directory itself, then each of its
    sub-directories in listing order. *)
Fixpoint walk_entry (parent : string) (e : entry) : list walk_item :=
  match e with
  | File _ _ => []
  | Dir name children =>
      let top := Py.path_join parent name in
      (top, dirnames children, filenames children)
        :: flat_map (walk_entry top) children
  end.

Definition walk_dir (top : string) (children : list entry) : list walk_item :=
  (top, dirnames children, filenames children)
    :: flat_map (walk_entry top) children.

(** [os.walk] swallows the error of listing something that is not a
    directory and yields nothing. *)
Definition walk_node (top : string) (c : node) : list walk_item :=
  match c with
  | Directory children => walk_dir top children
  | _ => []
  end.

Definition walk (top : string) : M (list walk_item) :=
  (emit (Walk top) ;;;
   c <- get cache ;;
   ret (walk_node top c))%py.

(** Every regular file below [top], with its full path. *)
Fixpoint files_entry (parent : string) (e : entry)
  : list (string * option GeoDataFrame) :=
  match e with
  | File name shape => [(Py.path_join parent name, shape)]
  | Dir name children =>
      flat_map (files_entry (Py.path_join parent name)) children
  end.

Definition files_below (top : string) (c : node)
  : list (string * option GeoDataFrame) :=
  match c with
  | Directory children => flat_map (files_entry top) children
  | _ => []
  end.

End Os.

(** [requests.get(url)]: the response body, or a connection failure. *)
Definition requests_get (url : string) : M archive :=
  (emit (HttpGet url) ;;;
   r <- get remote ;;
   match r with
   | Some body => ret body
   | None => raise ConnectionError
   end)%py.

(** [zipfile.ZipFile(BytesIO(content)).extractall(path)].  A body that
    is no archive is rejected before anything is written.  An extraction
    that breaks off on a damaged member raises with the members written
    so far on disk.  At its only call site the directory has just been
    created and is empty. *)
Definition extractall (body : archive) (path : string) : M unit :=
  match body with
  | NotAZip => raise BadZipFile
  | Zip members =>
      (emit (ExtractAll path) ;;;
       c <- get cache ;;
       fault <- get faulty ;;
       let old := match c with Directory old => old | _ => [] end in
       match fault with
       | Some written =>
           set_cache (Directory (old ++ written)) ;;;
           raise BadZipFile
       | None => set_cache (Directory (old ++ members))
       end)%py
  end.

(** ** Geometry provider: [get_us_shapefile] *)

Definition repo_zip_url : string :=
  "https://github.com/kalyanidhusia/geomap/archive/refs/heads/main.zip".

Definition local_dir (w : World) : string :=
  Py.path_join (home w) ".us_state_geo".

(** The inner [for file in files] loop: the first file ending in ".shp"
    sets [shp_path] and breaks; without one [shp_path] is left as it was. *)
Definition scan_files (root : string) (files : list string)
    (shp_path : option string) : option string :=
  match find (fun file => Py.endswith file ".shp") files with
  | Some file => Some (Py.path_join root file)
  | None => shp_path
  end.

(** The outer [for root, dirs, files in os.walk(local_dir)] loop.  The
    [break] leaves the inner loop only, so the outer loop visits every
    directory. *)
Definition locate (items : list Os.walk_item) : option string :=
  fold_left (fun shp_path '(root, _, files) => scan_files root files shp_path)
            items None.

Definition get_us_shapefile : M string :=
  (dir <- get local_dir ;;
   present <- Os.path_exists dir ;;
   (if negb present then
      Os.makedirs dir ;;;
      emit (Print "📦 Downloading U.S. shapefile data from GitHub...") ;;;
      r <- requests_get repo_zip_url ;;
      extractall r dir ;;;
      emit (Print "✅ Shapefile downloaded and extracted.")
    else ret tt) ;;;
   items <- Os.walk dir ;;
   match locate items with
   | None => raise FileNotFoundError
   | Some shp_path =>
       (* [not shp_path] also holds of the empty string *)
       if String.eqb shp_path "" then raise FileNotFoundError
       else ret shp_path
   end)%py.

(** ** pandas: the input table, the join, reductions *)

Definition mem (c : string) (cs : list string) : bool :=
  existsb (String.eqb c) cs.

Definition lift {A} (r : result A) : M A := fun w => (w, r).

(** [pd.read_csv(data_path, sep="\t")].  A path at which an image has
    been saved holds that image. *)
Definition read_csv (data_path : string) : M DataFrame :=
  (emit (ReadCsv data_path) ;;;
   images <- get saved ;;
   if existsb (fun i => String.eqb (fst i) data_path) images then
     reread <- get image_as_csv ;;
     lift (reread data_path)
   else
     ts <- get tables ;;
     match find (fun t => String.eqb (fst t) data_path) ts with
     | Some t => ret (snd t)
     | None => raise FileNotFoundError
     end)%py.

(** [gpd.read_file(shp_path)].  (No image is ever saved over a
    shapefile: [savefig] has no such file type.) *)
Definition read_file (shp_path : string) : M GeoDataFrame :=
  (emit (ReadFile shp_path) ;;;
   dir <- get local_dir ;;
   c <- get cache ;;
   match find (fun f => String.eqb (fst f) shp_path) (Os.files_below dir c) with
   | Some (_, Some usa) => ret usa
   | _ => raise DataSourceError
   end)%py.

(** Join keys compare as pandas compares them: equal texts match, and a
    missing key matches a missing key. *)
Definition key_eqb (a : option string) (b : key) : bool :=
  match a, b with
  | Some x, Text y => String.eqb x y
  | None, Missing => true
  | _, _ => false
  end.

Definition is_text (k : key) : bool :=
  match k with
  | Text _ => true
  | _ => false
  end.

(** The key column is numeric for pandas when it has rows and none of
    its cells is a text. *)
Definition numeric_keys (df : DataFrame) : bool :=
  negb (Nat.eqb (List.length (rows df)) 0)
  && forallb (fun r => negb (is_text (State r))) (rows df).

(** A joined record: the boundary record and the input row attached to
    it, if any. *)
Abbreviation MergedRow := (GeoRow * option DataRow)%type.

Definition matching (u : GeoRow) (df : DataFrame) : list DataRow :=
  filter (fun r => key_eqb (NAME u) (State r)) (rows df).

(** The records of the left join on (NAME == State): in the order of
    the left table, every left record once per matching right row (in
    the order of the right table), or once with nulls. *)
Definition merge (usa : GeoDataFrame) (df : DataFrame) : list MergedRow :=
  flat_map (fun u =>
              match matching u df with
              | [] => [(u, None)]
              | ms => map (fun r => (u, Some r)) ms
              end)
           (records usa).

(** [usa.merge(df, left_on="NAME", right_on="State", how="left")].  With
    rows on both sides, pandas refuses to join the names of the boundary
    table with a numeric key column. *)
Definition pd_merge (usa : GeoDataFrame) (df : DataFrame)
  : result (list MergedRow) :=
  if negb (Nat.eqb (List.length (records usa)) 0) && numeric_keys df
  then Raise ValueError
  else Ok (merge usa df).

Definition usa_columns (usa : GeoDataFrame) : list string :=
  "NAME" :: "STUSPS" :: attributes usa ++ ["geometry"].

(** Column names of the merged table: a name on both sides gets the
    suffix "_x" on the left and "_y" on the right. *)
Definition merged_columns (usa : GeoDataFrame) (df : DataFrame) : list string :=
  map (fun c => if mem c (columns df) then (c ++ "_x")%string else c) (usa_columns usa)
  ++ map (fun c => if mem c (usa_columns usa) then (c ++ "_y")%string else c) (columns df).

Fixpoint lookup (c : string) (l : list (string * option Q)) : option Q :=
  match l with
  | [] => None
  | (c', v) :: rest => if String.eqb c c' then v else lookup c rest
  end.

(** The number in a cell, if it holds one *)
Definition number_of (k : key) : option Q :=
  match k with
  | Number q => Some q
  | _ => None
  end.

(** The number a row has in a column *)
Definition cell_value (value_column : string) (r : DataRow) : option Q :=
  if String.eqb value_column "State" then number_of (State r)
  else lookup value_column (cells r).

(** [row[value_column]] of a joined record: the number of the cell of
    the attached row, NaN without a row.  (The join stores the column as
    floats when some record has no row; see the conventions.) *)
Definition value_of (value_column : string) (m : MergedRow) : option Q :=
  match snd m with
  | Some r => cell_value value_column r
  | None => None
  end.

(** [df[value_column]]: the cells of the column, which is the key column
    or a numeric column. *)
Definition getitem (df : DataFrame) (value_column : string)
  : result (list key) :=
  if negb (mem value_column (columns df)) then Raise (KeyError value_column)
  else if String.eqb value_column "State" then Ok (map State (rows df))
  else Ok (map (fun r => match lookup value_column (cells r) with
                         | Some q => Number q
                         | None => Missing
                         end) (rows df)).

(** Values that are present (not NaN) *)
Definition dropna (xs : list (option Q)) : list Q :=
  flat_map (fun x => match x with Some q => [q] | None => [] end) xs.

Definition Qmin2 (a b : Q) : Q := if Qle_bool a b then a else b.
Definition Qmax2 (a b : Q) : Q := if Qle_bool a b then b else a.

(** [Series.min()] and [Series.max()]: over the present values, NaN when
    there is none. *)
Definition series_min (xs : list (option Q)) : option Q :=
  match dropna xs with
  | [] => None
  | q :: qs => Some (fold_left Qmin2 qs q)
  end.

Definition series_max (xs : list (option Q)) : option Q :=
  match dropna xs with
  | [] => None
  | q :: qs => Some (fold_left Qmax2 qs q)
  end.

(** What a reduction of a column returns: a number (or NaN), or a text. *)
Inductive extremum :=
| Num (x : option Q)
| Str (s : string).

Definition texts (col : list key) : list string :=
  flat_map (fun k => match k with Text s => [s] | _ => [] end) col.

Definition least (ss : list string) : string :=
  match ss with
  | [] => EmptyString
  | s :: rest => fold_left (fun a b => if String.leb a b then a else b) rest s
  end.

Definition greatest (ss : list string) : string :=
  match ss with
  | [] => EmptyString
  | s :: rest => fold_left (fun a b => if String.leb a b then b else a) rest s
  end.

(** [Series.min()] and [Series.max()] of a column as the table holds it.
    A column of texts has a least text.  In a column that has a text
    beside a number or an empty cell, the text is compared with a
    number, which raises. *)
Definition Series_min (col : list key) : result extremum :=
  if existsb is_text col then
    if forallb is_text col then Ok (Str (least (texts col)))
    else Raise TypeError
  else Ok (Num (series_min (map number_of col))).

Definition Series_max (col : list key) : result extremum :=
  if existsb is_text col then
    if forallb is_text col then Ok (Str (greatest (texts col)))
    else Raise TypeError
  else Ok (Num (series_max (map number_of col))).

(** [Normalize(vmin=vmin, vmax=vmax)] turns its bounds into floats; a
    name is no float. *)
Definition Normalize_init (lo hi : extremum) : result Normalize :=
  match lo, hi with
  | Num a, Num b => Ok (mkNormalize a b)
  | _, _ => Raise ValueError
  end.

(** ** matplotlib: normalisation and the colour map *)

Definition Qlt_bool (a b : Q) : bool := negb (Qle_bool b a).

(** What [Normalize.__call__] does with a value, by its three branches:
    [vmin == vmax] fills the result with 0; [vmin > vmax] raises;
    otherwise the value is shifted by [vmin] and divided by
    [vmax - vmin].  With a NaN bound every comparison is false and the
    arithmetic yields NaN. *)
Inductive norm_step :=
| Fill0
| Invalid
| Divide (numerator denominator : Q)
| NotANumber.

Definition norm_plan (norm : Normalize) (x : Q) : norm_step :=
  match vmin norm, vmax norm with
  | Some lo, Some hi =>
      if Qeq_bool lo hi then Fill0
      else if Qlt_bool hi lo then Invalid
      else Divide (x - lo) (hi - lo)
  | _, _ => NotANumber
  end.

Definition run_step (s : norm_step) : result (option Q) :=
  match s with
  | Fill0 => Ok (Some 0)
  | Invalid => Raise ValueError
  | Divide n d => Ok (Some (n / d))
  | NotANumber => Ok None
  end.

(** [norm(x)] *)
Definition Normalize_call (norm : Normalize) (x : Q) : result (option Q) :=
  run_step (norm_plan norm x).

(** The five stops of the gradient, low to high. *)
Definition palette : list string :=
  ["#85011C"; "#6E082D"; "#BA005A"; "#462A8C"; "#172378"].

Definition hex_digit (c : ascii) : option Z :=
  let n := Z.of_nat (nat_of_ascii c) in
  if (48 <=? n)%Z && (n <=? 57)%Z then Some (n - 48)%Z
  else if (65 <=? n)%Z && (n <=? 70)%Z then Some (n - 55)%Z
  else if (97 <=? n)%Z && (n <=? 102)%Z then Some (n - 87)%Z
  else None.

Definition hex_byte (hi lo : ascii) : option Q :=
  match hex_digit hi, hex_digit lo with
  | Some h, Some l => Some (inject_Z (16 * h + l) / 255)
  | _, _ => None
  end.

(** [to_rgb("#RRGGBB")] *)
Definition to_rgb (s : string) : option (Q * Q * Q) :=
  match s with
  | String "#" (String r1 (String r2 (String g1 (String g2
      (String b1 (String b2 EmptyString)))))) =>
      match hex_byte r1 r2, hex_byte g1 g2, hex_byte b1 b2 with
      | Some r, Some g, Some b => Some (r, g, b)
      | _, _, _ => None
      end
  | _ => None
  end.

Definition stops : list (Q * Q * Q) :=
  flat_map (fun h => match to_rgb h with Some c => [c] | None => [] end)
           palette.

(** Number of entries of the lookup table *)
Definition lut_size : nat := 256.

(** [np.searchsorted(xs, v)]: how many of [xs] lie strictly below [v] *)
Definition searchsorted (xs : list Q) (v : Q) : nat :=
  List.length (filter (fun x => Qlt_bool x v) xs).

Definition clip01 (q : Q) : Q :=
  if Qlt_bool q 0 then 0 else if Qlt_bool 1 q then 1 else q.

(** One channel of the table made by
    [LinearSegmentedColormap.from_list]: the stops sit at equal
    distances on [0, 1], entry [i] is read at [i / (lut_size - 1)] by
    linear interpolation between the two stops around it. *)
Definition lut_channel (ys : list Q) (i : nat) : Q :=
  let last := (List.length ys - 1)%nat in
  let position (k : nat) : Q :=
    inject_Z (Z.of_nat k) / inject_Z (Z.of_nat last) in
  let y (k : nat) : Q := nth k ys 0 in
  if (i =? 0)%nat then clip01 (y 0%nat)
  else if (lut_size - 1 <=? i)%nat then clip01 (y last)
  else
    let xind := inject_Z (Z.of_nat i) / inject_Z (Z.of_nat (lut_size - 1)) in
    let ind := searchsorted (map position (seq 0 (List.length ys))) xind in
    let distance :=
      (xind - position (ind - 1)%nat)
      / (position ind - position (ind - 1)%nat) in
    clip01 (distance * (y ind - y (ind - 1)%nat) + y (ind - 1)%nat).

Definition lut (i : nat) : color :=
  RGBA (lut_channel (map (fun c => fst (fst c)) stops) i)
       (lut_channel (map (fun c => snd (fst c)) stops) i)
       (lut_channel (map snd stops) i)
       1.

(** [cmap(x)] for a scalar: a position in [0, 1] selects the table
    entry [int(x * lut_size)], 1 selects the last entry; positions below
    and above the range take the first and last entry, NaN the
    transparent "bad" colour. *)
Definition cmap (x : option Q) : color :=
  match x with
  | None => RGBA 0 0 0 0
  | Some x =>
      let n := inject_Z (Z.of_nat lut_size) in
      let xa := x * n in
      if Qeq_bool xa n then lut (lut_size - 1)
      else if Qlt_bool xa 0 then lut 0
      else if Qle_bool n xa then lut (lut_size - 1)
      else lut (Z.to_nat (Qfloor xa))
  end.

(** ** The f-string [f"{value:.2f}"] *)

Definition newline : string := String (ascii_of_nat 10) EmptyString.

Definition digits (n : Z) : string :=
  NilZero.string_of_uint (N.to_uint (Z.to_N n)).

(** Nearest integer, ties to even *)
Definition round_half_even (q : Q) : Z :=
  let f := Qfloor q in
  let r := q - inject_Z f in
  if Qlt_bool r (1 # 2) then f
  else if Qlt_bool (1 # 2) r then (f + 1)%Z
  else if Z.even f then f else (f + 1)%Z.

Definition format_2f (q : Q) : string :=
  let n := round_half_even (Qabs q * 100) in
  let whole := digits (n / 100) in
  let frac := (n mod 100)%Z in
  ((if Qlt_bool q 0 then "-" else "")
   ++ whole ++ "."
   ++ (if (frac <? 10)%Z then "0" else "") ++ digits frac)%string.

(** ** Map renderer: [plot_us_map] *)

Definition rbind {A B} (r : result A) (k : A -> result B) : result B :=
  match r with
  | Ok a => k a
  | Raise e => Raise e
  end.

Declare Scope res_scope.
Delimit Scope res_scope with res.
Notation "x <- r ;; k" := (rbind r (fun x => k))
  (at level 100, r at next level, right associativity) : res_scope.

(** A loop over the rows that stops at the first exception *)
Fixpoint traverse {A B} (f : A -> result B) (l : list A) : result (list B) :=
  match l with
  | [] => Ok []
  | a :: rest =>
      (b <- f a ;;
       bs <- traverse f rest ;;
       Ok (b :: bs))%res
  end.

Definition grey : color := Named "#DEDEDE".

(** [lambda x: cmap(norm(x)) if pd.notnull(x) else "#DEDEDE"] *)
Definition color_of (norm : Normalize) (x : option Q) : result color :=
  match x with
  | Some v => (t <- Normalize_call norm v ;; Ok (cmap t))%res
  | None => Ok grey
  end.

(** [merged[value_column]] *)
Definition merged_getitem (usa : GeoDataFrame) (df : DataFrame)
    (value_column : string) : result (list (option Q)) :=
  if mem value_column (merged_columns usa df)
  then Ok (map (value_of value_column) (merge usa df))
  else Raise (KeyError value_column).

(** The label of one joined record (lines 99-106 and 108-116): the
    code and the value to two decimals in bold white, or the code alone
    in medium black. *)
Definition label (value_column : string) (row : MergedRow) : Annotation :=
  let code := STUSPS (fst row) in
  match value_of value_column row with
  | Some value =>
      mkAnnotation (code ++ newline ++ format_2f value)
                   (geometry (fst row)) "bold" "white"
  | None =>
      mkAnnotation code (geometry (fst row)) "medium" "black"
  end.

(** The body of the labelling loop; [row["STUSPS"]] needs the column
    under its own name. *)
Definition annotate (usa : GeoDataFrame) (df : DataFrame)
    (value_column : string) (row : MergedRow) : result Annotation :=
  if negb (mem "STUSPS" (merged_columns usa df)) then Raise (KeyError "STUSPS")
  else Ok (label value_column row).

Definition humanize (value_column : string) : string :=
  Py.replace "_" " " value_column.

(** [np.finfo(float).tiny], the least normal 64-bit float *)
Definition float_tiny : Q := 1 # (2 ^ 1022).

(** [mtransforms.nonsingular(vmin, vmax, expander=0.1)], by which
    [plt.colorbar] widens the range of its scale: a bound that is not a
    number, or a range too narrow for its magnitude, is replaced. *)
Definition nonsingular (norm : Normalize) : Q * Q :=
  let expander : Q := 1 # 10 in
  let tiny : Q := 1 # (10 ^ 15) in
  match vmin norm, vmax norm with
  | Some lo, Some hi =>
      let lo' := if Qlt_bool hi lo then hi else lo in
      let hi' := if Qlt_bool hi lo then lo else hi in
      let maxabsvalue := Qmax2 (Qabs lo') (Qabs hi') in
      if Qlt_bool maxabsvalue (inject_Z (10 ^ 6) / tiny * float_tiny)
      then (- expander, expander)
      else if Qle_bool (hi' - lo') (maxabsvalue * tiny) then
        if Qeq_bool hi' 0 && Qeq_bool lo' 0 then (- expander, expander)
        else (lo' - expander * Qabs lo', hi' + expander * Qabs hi')
      else (lo', hi')
  | _, _ => (- (1 # 10), 1 # 10)
  end.

(** Lines 65-120 of [plot_us_map]: from the two tables to the figure. *)
Definition draw_map (usa : GeoDataFrame) (df : DataFrame)
    (value_column : string) : result Figure :=
  (merged <- pd_merge usa df ;;
   column <- getitem df value_column ;;
   lo <- Series_min column ;;
   hi <- Series_max column ;;
   norm <- Normalize_init lo hi ;;
   values <- merged_getitem usa df value_column ;;
   colors <- traverse (color_of norm) values ;;
   (* merged.plot needs the geometry column under its own name *)
   _ <- (if mem "geometry" (merged_columns usa df) then Ok tt
         else Raise AttributeError) ;;
   let drawn := combine (map (fun row => geometry (fst row)) merged) colors in
   let cbar := mkColorbar norm (nonsingular norm) (humanize value_column) in
   labels <- traverse (annotate usa df value_column) merged ;;
   Ok (mkFigure drawn cbar labels (humanize value_column ++ " by State")))%res.

(** The file types [savefig] can write *)
Definition filetypes : list string :=
  ["eps"; "jpg"; "jpeg"; "pdf"; "pgf"; "png"; "ps"; "raw"; "rgba"; "svg";
   "svgz"; "tif"; "tiff"; "webp"].

(** The file [savefig] writes: the name it is given, or that name with
    ".png" when it has no extension. *)
Definition save_target (output_file : string) : string :=
  if String.eqb (Py.extension output_file) ""
  then (Py.rstrip_dots output_file ++ ".png")%string
  else output_file.

(** [plt.savefig(output_file, dpi=300, bbox_inches="tight")]: the file
    type is that of the extension, and one [savefig] has not is refused
    before the file is opened; a file that cannot be written raises the
    error of the attempt; else the image replaces what the path held. *)
Definition savefig (output_file : string) (fig : Figure) : M unit :=
  (emit (Savefig output_file) ;;;
   let ext := Py.lower (Py.extension output_file) in
   if negb (String.eqb ext "") && negb (mem ext filetypes) then raise ValueError
   else
     bad <- get unwritable ;;
     match find (fun b => String.eqb (fst b) (save_target output_file)) bad with
     | Some b => raise (snd b)
     | None =>
         fun w => (mkWorld (home w) (cache w) (remote w) (faulty w) (tables w)
                           (image_as_csv w) (unwritable w)
                           ((save_target output_file, fig) :: saved w) (log w),
                   Ok tt)
     end)%py.

Definition plot_us_map (data_path value_column output_file : string) : M unit :=
  (df <- read_csv data_path ;;
   if negb (mem "State" (columns df)) then raise ValueError
   else
     shp_path <- get_us_shapefile ;;
     usa <- read_file shp_path ;;
     fig <- lift (draw_map usa df value_column) ;;
     savefig output_file fig ;;;
     emit (Print ("✅ Map saved as " ++ output_file)) ;;;
     emit PltClose)%py.

(** ** A sample run *)

Module Sample.

Definition square (x y : Z) : Polygon :=
  [(inject_Z x, inject_Z y); (inject_Z (x + 1), inject_Z y);
   (inject_Z (x + 1), inject_Z (y + 1)); (inject_Z x, inject_Z (y + 1))].

Definition california : GeoRow := mkGeoRow (Some "California") "CA" (square 0 0).
Definition texas : GeoRow := mkGeoRow (Some "Texas") "TX" (square 3 0).
Definition nevada : GeoRow := mkGeoRow (Some "Nevada") "NV" (square 1 1).

Definition usa : GeoDataFrame :=
  mkGeoDataFrame ["STATEFP"; "ALAND"] [california; texas; nevada].

Definition data_row (state : string) (value : Q) : DataRow :=
  mkDataRow (Text state) [("Property_Tax_Burden", Some value)].

(** The scenario of the specification: two states with a value. *)
Definition df : DataFrame :=
  mkDataFrame ["State"; "Property_Tax_Burden"]
              [data_row "California" (76 # 100); data_row "Texas" (16 # 10)].

Definition unpacked : list entry :=
  [Dir "geomap-main"
       [File "README.md" None;
        Dir "state_geo_files"
            [File "us_states.dbf" None; File "us_states.shp" (Some usa)]]].

(** An image read back as a table is taken to be undecodable. *)
Definition no_table : string -> result DataFrame :=
  fun _ => Raise UnicodeDecodeError.

Definition world (c : node) : World :=
  mkWorld "/home/user" c (Some (Zip unpacked)) None [("data.txt", df)]
          no_table [] [] [].

Definition header : list string := ["State"; "Property_Tax_Burden"].

(** A table whose metric values are all equal. *)
Definition flat_df : DataFrame :=
  mkDataFrame header [data_row "California" 5; data_row "Texas" 5].

(** A table with a row for a state the boundary table does not have. *)
Definition far_df : DataFrame :=
  mkDataFrame header [data_row "California" 1; data_row "Atlantis" 100].


(** A table with two rows for one state. *)
Definition twice_df : DataFrame :=
  mkDataFrame header
              [data_row "California" 1; data_row "Texas" 2; data_row "California" 3].

(** The sample table with its key column under another name, and a
    first run on it. *)
Definition no_state_df : DataFrame :=
  mkDataFrame ["Name"; "Property_Tax_Burden"] (rows df).

Definition no_state_world : World :=
  mkWorld "/home/user" Absent (Some (Zip unpacked)) None
          [("data.txt", no_state_df)] no_table [] [] [].




(** A first run in which the extraction breaks off after the shapefile
    is written. *)
Definition broken_world : World :=
  mkWorld "/home/user" Absent (Some (Zip unpacked))
          (Some [Dir "geomap-main"
                     [Dir "state_geo_files" [File "us_states.shp" (Some usa)]]])
          [("data.txt", df)] no_table [] [] [].

(** A cache in which two directories hold a shapefile. *)
Definition two_shapefile_dirs : node :=
  Directory
    [Dir "geomap-main"
         [Dir "state_geo_files" [File "us_states.shp" (Some usa)];
          Dir "county_geo_files" [File "us_counties.shp" None]]].

End Sample.

(** ** Notions used in the statements *)

(** The events a computation adds to the log of the world it starts in *)
Definition trace {A} (m : M A) (w : World) : list event :=
  skipn (List.length (log w)) (log (fst (m w))).

Definition is_download (e : event) : bool :=
  match e with
  | HttpGet _ => true
  | _ => false
  end.

Definition downloads (es : list event) : nat :=
  List.length (filter is_download es).

(** Structural induction on directory trees *)
Section EntryInduction.
Variable P : entry -> Prop.
Hypothesis P_file : forall name shape, P (File name shape).
Hypothesis P_dir : forall name children, Forall P children -> P (Dir name children).

Fixpoint entry_tree_ind (e : entry) : P e :=
  match e with
  | File name shape => P_file name shape
  | Dir name children =>
      P_dir name children
        ((fix all (l : list entry) : Forall P l :=
            match l with
            | [] => Forall_nil P
            | x :: rest => Forall_cons x (entry_tree_ind x) (all rest)
            end) children)
  end.

End EntryInduction.

Definition is_shp (file : string) : bool := Py.endswith file ".shp".

(** A tree holds a shapefile when some regular file at any depth has
    the extension. *)
Fixpoint entry_has_shp (e : entry) : bool :=
  match e with
  | File name _ => is_shp name
  | Dir _ children => existsb entry_has_shp children
  end.

Definition tree_has_shp (c : node) : bool :=
  match c with
  | Directory children => existsb entry_has_shp children
  | _ => false
  end.

Definition item_has_shp (it : Os.walk_item) : bool := existsb is_shp (snd it).

(** The shapefiles in the order the walk meets them *)
Definition shp_in_walk_order (items : list Os.walk_item) : list string :=
  flat_map (fun '(root, _, files) => map (Py.path_join root) (filter is_shp files))
           items.

Definition first_encountered (items : list Os.walk_item) : option string :=
  hd_error (shp_in_walk_order items).

Definition scan_step (shp_path : option string) (it : Os.walk_item) : option string :=
  let '(root, _, files) := it in scan_files root files shp_path.

Definition walk_agrees (e : entry) : Prop :=
  forall parent,
    existsb item_has_shp (Os.walk_entry parent e) =
    match e with
    | File _ _ => false
    | Dir _ _ => entry_has_shp e
    end.

(** The cache as the search finds it: the cache itself when it exists
    at the start of the call, the extracted archive after a download,
    and none when the download or the extraction raised. *)
Definition searched_tree (w : World) : option node :=
  match cache w with
  | Absent =>
      match remote w, faulty w with
      | Some (Zip members), None => Some (Directory members)
      | _, _ => None
      end
  | c => Some c
  end.

(** Repeated calls of the provider, each in the world the previous one
    left. *)
Fixpoint calls (n : nat) (w : World) : World :=
  match n with
  | O => w
  | S n' => calls n' (fst (get_us_shapefile w))
  end.

(** What a call does to the log and to the cache, by the state of the
    cache and of the remote end. *)
Definition provider_trace (w : World) : list event :=
  let dir := local_dir w in
  match cache w with
  | Absent =>
      [PathExists dir; Makedirs dir;
       Print "📦 Downloading U.S. shapefile data from GitHub...";
       HttpGet repo_zip_url]
      ++ match remote w, faulty w with
         | Some (Zip _), None =>
             [ExtractAll dir; Print "✅ Shapefile downloaded and extracted.";
              Walk dir]
         | Some (Zip _), Some _ => [ExtractAll dir]
         | _, _ => []
         end
  | _ => [PathExists dir; Walk dir]
  end.

Definition provider_cache (w : World) : node :=
  match cache w with
  | Absent =>
      match remote w, faulty w with
      | Some (Zip members), None => Directory members
      | Some (Zip _), Some written => Directory written
      | _, _ => Directory []
      end
  | c => c
  end.

(** The result of the search of lines 41-49 in a cache *)
Definition search (dir : string) (c : node) : result string :=
  match c with
  | Directory children =>
      match locate (Os.walk_dir dir children) with
      | Some p => Ok p
      | None => Raise FileNotFoundError
      end
  | _ => Raise FileNotFoundError
  end.

(** The joined records of one boundary record *)
Definition block (df : DataFrame) (u : GeoRow) : list MergedRow :=
  match matching u df with
  | [] => [(u, None)]
  | ms => map (fun r => (u, Some r)) ms
  end.

(** A bound of a column: a present value of the column below (above)
    every present value, or NaN when the column has no present value. *)
Definition is_min (col : list (option Q)) (bound : option Q) : Prop :=
  match bound with
  | Some lo => In (Some lo) col /\ forall q, In (Some q) col -> lo <= q
  | None => forall q, ~ In (Some q) col
  end.

Definition is_max (col : list (option Q)) (bound : option Q) : Prop :=
  match bound with
  | Some hi => In (Some hi) col /\ forall q, In (Some q) col -> q <= hi
  | None => forall q, ~ In (Some q) col
  end.

(** The metric column of the input table *)
Definition metric_column (df : DataFrame) (value_column : string)
  : list (option Q) :=
  map (cell_value value_column) (rows df).

(** The colour scale built from the input table (lines 72-73) *)
Definition scale (df : DataFrame) (value_column : string) : Normalize :=
  mkNormalize (series_min (metric_column df value_column))
              (series_max (metric_column df value_column)).

(** The key column taken as the metric column, when it holds a text *)
Definition text_metric (df : DataFrame) (value_column : string) : bool :=
  String.eqb value_column "State" && existsb is_text (map State (rows df)).

(** The colour [color_of] returns, where it returns *)
Definition shade (norm : Normalize) (x : option Q) : color :=
  match color_of norm x with
  | Ok c => c
  | Raise _ => grey
  end.

Definition figure_of (usa : GeoDataFrame) (df : DataFrame)
    (value_column : string) : Figure :=
  let norm := scale df value_column in
  let merged := merge usa df in
  mkFigure
    (map (fun row => (geometry (fst row), shade norm (value_of value_column row)))
         merged)
    (mkColorbar norm (nonsingular norm) (humanize value_column))
    (map (label value_column) merged)
    (humanize value_column ++ " by State").

Definition geometry_of (row : MergedRow) : Polygon := geometry (fst row).

(** The label of a record without a value: the code alone *)
Definition code_only (u : GeoRow) : Annotation :=
  mkAnnotation (STUSPS u) (geometry u) "medium" "black".

(** The colour at the middle of the gradient, and its lowest colour,
    the first stop "#85011C" *)
Definition midpoint : color := cmap (Some (1 # 2)).

Definition low_end : color := RGBA (133 # 255) (1 # 255) (28 # 255) 1.

Definition color_eqb (c c' : color) : bool :=
  match c, c' with
  | RGBA r g b a, RGBA r' g' b' a' =>
      Qeq_bool r r' && Qeq_bool g g' && Qeq_bool b b' && Qeq_bool a a'
  | Named n, Named n' => String.eqb n n'
  | _, _ => false
  end.

(** Lines 125-127: the figure is saved, the message printed and the
    figure closed. *)
Definition finish (output_file : string) (fig : Figure) : M unit :=
  (savefig output_file fig ;;;
   emit (Print ("✅ Map saved as " ++ output_file)) ;;;
   emit PltClose)%py.

(** ** Notions used in the further properties *)

Definition walk_in_tree (e : entry) : Prop :=
  forall parent root dirs files f,
    In (root, dirs, files) (Os.walk_entry parent e) -> In f files ->
    exists shape, In (Py.path_join root f, shape) (Os.files_entry parent e).

(** The I/O of a run, in order: the read of the input; after the
    validation the provider; after its success the read of the
    shapefile; after the figure is made the save and, when the image is
    written, its message. *)
Definition run_trace (data_path value_column output_file : string) (w : World)
  : list event :=
  ReadCsv data_path ::
  match read_csv data_path w with
  | (w1, Ok df) =>
      if mem "State" (columns df) then
        provider_trace w1
        ++ match get_us_shapefile w1 with
           | (w2, Ok shp_path) =>
               ReadFile shp_path ::
               match read_file shp_path w2 with
               | (w3, Ok usa) =>
                   match draw_map usa df value_column with
                   | Ok fig =>
                       Savefig output_file ::
                       match snd (savefig output_file fig w3) with
                       | Ok _ => [Print ("✅ Map saved as " ++ output_file);
                                  PltClose]
                       | Raise _ => []
                       end
                   | Raise _ => []
                   end
               | (_, Raise _) => []
               end
           | (_, Raise _) => []
           end
      else []
  | (_, Raise _) => []
  end.

Definition matched_df : DataFrame :=
  mkDataFrame Sample.header
              [Sample.data_row "Nevada" 2; Sample.data_row "California" 1;
               Sample.data_row "Texas" 3].

(** The highest colour of the gradient, the last stop "#172378" *)
Definition high_end : color := RGBA (23 # 255) (35 # 255) (120 # 255) 1.

(** A number written with two decimals, as [f"{value:.2f}"] writes a
    finite number: an optional sign, digits, a point and two digits. *)
Definition is_digit (c : ascii) : bool :=
  (48 <=? nat_of_ascii c)%nat && (nat_of_ascii c <=? 57)%nat.

Fixpoint all_digits (s : string) : bool :=
  match s with
  | EmptyString => true
  | String c rest => is_digit c && all_digits rest
  end.

Definition two_decimals (s : string) : Prop :=
  exists sign whole frac,
    s = (sign ++ whole ++ "." ++ frac)%string
    /\ (sign = "" \/ sign = "-")
    /\ whole <> ""
    /\ all_digits whole = true
    /\ all_digits frac = true
    /\ String.length frac = 2%nat.

(** The table entry [cmap] picks for a position in [0, 1] *)
Definition table_index (x : Q) : nat :=
  if Qeq_bool (x * 256) 256 then 255%nat else Z.to_nat (Qfloor (x * 256)).

(** The position [norm] gives a value *)
Definition position (norm : Normalize) (q : Q) : Q :=
  match norm_plan norm q with
  | Divide n d => n / d
  | _ => 0
  end.

(** * Properties *)

(** ** Tools *)

Arguments Py.path_join : simpl never.
Arguments Os.walk_dir : simpl never.
Arguments locate : simpl never.
Arguments Os.files_below : simpl never.

Ltac run :=
  unfold bind, ret, raise, get, emit, set_cache, lift; cbn.

Lemma skipn_length_app {A} (l l' : list A) : skipn (List.length l) (l ++ l') = l'.
Proof. induction l; cbn; auto. Qed.

Lemma string_length_app (a b : string) :
  String.length (a ++ b) = (String.length a + String.length b)%nat.
Proof. induction a; cbn; auto. Qed.

(** ** The search for the shapefile *)

Lemma path_join_nonempty (a b : string) : b <> "" -> Py.path_join a b <> "".
Proof.
  intros Hb. unfold Py.path_join.
  destruct (Py.startswith b "/"); [exact Hb|].
  assert (L : (0 < String.length b)%nat) by (destruct b; [congruence | cbn; lia]).
  destruct (String.eqb a "" || Py.endswith a "/");
    intros E; apply (f_equal String.length) in E;
    rewrite ?string_length_app in E; cbn in E; lia.
Qed.

Lemma is_shp_nonempty (file : string) : is_shp file = true -> file <> "".
Proof. intros H E; subst; discriminate. Qed.

Lemma scan_files_some (root : string) (files : list string) (acc : option string) :
  existsb is_shp files = true ->
  exists file, find is_shp files = Some file /\ is_shp file = true
               /\ scan_files root files acc = Some (Py.path_join root file).
Proof.
  intros H. unfold scan_files. fold is_shp.
  destruct (find is_shp files) as [file|] eqn:E.
  - exists file. apply find_some in E. tauto.
  - apply existsb_exists in H. destruct H as [x [Hx Hs]].
    pose proof (find_none _ _ E x Hx). congruence.
Qed.

Lemma scan_files_none (root : string) (files : list string) (acc : option string) :
  existsb is_shp files = false -> scan_files root files acc = acc.
Proof.
  intros H. unfold scan_files. fold is_shp.
  destruct (find is_shp files) as [file|] eqn:E; auto.
  apply find_some in E. destruct E as [Hin Hs].
  assert (existsb is_shp files = true) by (apply existsb_exists; eauto).
  congruence.
Qed.

Lemma locate_fold (items : list Os.walk_item) :
  locate items = fold_left scan_step items None.
Proof. reflexivity. Qed.

(** The loops leave [shp_path] unset exactly when no directory of the
    walk lists a shapefile. *)
Lemma fold_scan_none (items : list Os.walk_item) (acc : option string) :
  fold_left scan_step items acc = None <->
  acc = None /\ existsb item_has_shp items = false.
Proof.
  revert acc. induction items as [|[[root dirs] files] rest IH]; intros acc; cbn.
  - tauto.
  - rewrite IH. unfold item_has_shp at 1. cbn.
    destruct (existsb is_shp files) eqn:E.
    + destruct (scan_files_some root files acc E) as [f [_ [_ ->]]].
      cbn. split; [intros [? _]; discriminate | intros [_ ?]; discriminate].
    + rewrite (scan_files_none root files acc E). cbn. tauto.
Qed.

Lemma fold_scan_nonempty (items : list Os.walk_item) (acc : option string) p :
  acc <> Some "" -> fold_left scan_step items acc = Some p -> p <> "".
Proof.
  revert acc. induction items as [|[[root dirs] files] rest IH]; intros acc Ha; cbn.
  - intros -> E. subst. congruence.
  - apply IH. destruct (existsb is_shp files) eqn:E.
    + destruct (scan_files_some root files acc E) as [f [_ [Hf ->]]].
      intros X. injection X as X. revert X.
      apply path_join_nonempty, is_shp_nonempty, Hf.
    + rewrite (scan_files_none root files acc E). exact Ha.
Qed.

Lemma children_have_shp (top : string) (children : list entry) :
  Forall walk_agrees children ->
  existsb is_shp (Os.filenames children)
  || existsb item_has_shp (flat_map (Os.walk_entry top) children)
  = existsb entry_has_shp children.
Proof.
  induction 1 as [|e rest He _ IH]; [reflexivity|].
  change (flat_map (Os.walk_entry top) (e :: rest))
    with (Os.walk_entry top e ++ flat_map (Os.walk_entry top) rest).
  rewrite existsb_app, (He top).
  destruct e as [n s | n ch].
  - change (Os.filenames (File n s :: rest)) with (n :: Os.filenames rest).
    cbn [existsb entry_has_shp]. rewrite <- IH, orb_false_l, orb_assoc. reflexivity.
  - change (Os.filenames (Dir n ch :: rest)) with (Os.filenames rest).
    cbn [existsb]. rewrite <- IH.
    destruct (entry_has_shp (Dir n ch)), (existsb is_shp (Os.filenames rest));
      reflexivity.
Qed.

Lemma walk_entry_agrees (e : entry) : walk_agrees e.
Proof.
  induction e as [n s | n ch IH] using entry_tree_ind; intros parent;
    [reflexivity|].
  cbn [Os.walk_entry existsb entry_has_shp].
  unfold item_has_shp at 1. cbn [snd].
  apply children_have_shp, IH.
Qed.

Lemma walk_dir_has_shp (top : string) (children : list entry) :
  existsb item_has_shp (Os.walk_dir top children) = existsb entry_has_shp children.
Proof.
  unfold Os.walk_dir. cbn [existsb]. unfold item_has_shp at 1. cbn [snd].
  apply children_have_shp, Forall_forall. intros e _. apply walk_entry_agrees.
Qed.

Lemma locate_none_iff (top : string) (children : list entry) :
  locate (Os.walk_dir top children) = None <-> existsb entry_has_shp children = false.
Proof.
  rewrite locate_fold, fold_scan_none, walk_dir_has_shp. tauto.
Qed.

Lemma locate_nonempty (items : list Os.walk_item) p :
  locate items = Some p -> p <> "".
Proof. rewrite locate_fold. apply fold_scan_nonempty. discriminate. Qed.

(** The result of the loops: the first shapefile of the last directory
    of the walk that lists one. *)
Lemma locate_last_directory (items : list Os.walk_item) :
  locate items =
  match rev (filter item_has_shp items) with
  | [] => None
  | (root, _, files) :: _ => option_map (Py.path_join root) (find is_shp files)
  end.
Proof.
  rewrite locate_fold. generalize (@None string) as acc.
  induction items as [|[[root dirs] files] items IH] using rev_ind; intros acc.
  - reflexivity.
  - rewrite fold_left_app, filter_app, rev_app_distr. cbn [fold_left filter scan_step].
    unfold item_has_shp at 1. cbn [snd].
    destruct (existsb is_shp files) eqn:E.
    + destruct (scan_files_some root files (fold_left scan_step items acc) E)
        as [f [Hf [_ ->]]].
      cbn. rewrite Hf. reflexivity.
    + rewrite (scan_files_none _ _ _ E). cbn. rewrite IH.
      destruct (rev (filter item_has_shp items)) as [|[[r d] fs] ?]; cbn.
      all: reflexivity.
Qed.

Lemma downloads_app (l l' : list event) :
  downloads (l ++ l') = (downloads l + downloads l')%nat.
Proof. unfold downloads. rewrite filter_app, length_app. reflexivity. Qed.

Lemma get_us_shapefile_world (w : World) :
  let w' := fst (get_us_shapefile w) in
  log w' = log w ++ provider_trace w
  /\ cache w' = provider_cache w
  /\ home w' = home w /\ remote w' = remote w
  /\ tables w' = tables w /\ saved w' = saved w.
Proof.
  destruct w as [h c r ft t ic uw s l].
  unfold get_us_shapefile, provider_trace, provider_cache.
  destruct c as [| |children]; cbn [cache remote faulty].
  - destruct r as [[|members]|]; [| destruct ft as [written|] |]; run.
    + rewrite <- !app_assoc. cbn. repeat split; reflexivity.
    + rewrite <- !app_assoc. cbn. repeat split; reflexivity.
    + rewrite <- !app_assoc. cbn.
      destruct (locate _) as [p|]; [destruct (String.eqb p "")|]; cbn;
        rewrite <- ?app_assoc; repeat split; reflexivity.
    + rewrite <- !app_assoc. cbn. repeat split; reflexivity.
  - run. rewrite <- !app_assoc. cbn. repeat split; reflexivity.
  - run. rewrite <- !app_assoc.
    destruct (locate _) as [p|]; [destruct (String.eqb p "")|]; cbn;
      repeat split; reflexivity.
Qed.

Lemma get_us_shapefile_trace (w : World) :
  trace get_us_shapefile w = provider_trace w.
Proof.
  unfold trace. destruct (get_us_shapefile_world w) as [-> _].
  apply skipn_length_app.
Qed.

(** The outcome of a call, by the tree the search finds. *)
Lemma get_us_shapefile_result (w : World) :
  snd (get_us_shapefile w) =
  match cache w with
  | Absent =>
      match remote w with
      | None => Raise ConnectionError
      | Some NotAZip => Raise BadZipFile
      | Some (Zip members) =>
          match faulty w with
          | Some _ => Raise BadZipFile
          | None =>
              match locate (Os.walk_dir (local_dir w) members) with
              | Some p => Ok p
              | None => Raise FileNotFoundError
              end
          end
      end
  | RegularFile => Raise FileNotFoundError
  | Directory children =>
      match locate (Os.walk_dir (local_dir w) children) with
      | Some p => Ok p
      | None => Raise FileNotFoundError
      end
  end.
Proof.
  destruct w as [h c r ft t ic uw s l]. unfold get_us_shapefile.
  destruct c as [| |children]; cbn [cache remote faulty].
  - destruct r as [[|members]|]; [| destruct ft as [written|] |]; run;
      try reflexivity.
    unfold local_dir; cbn [home].
    destruct (locate _) as [p|] eqn:E; [|reflexivity].
    apply locate_nonempty in E. apply String.eqb_neq in E. rewrite E. reflexivity.
  - run. reflexivity.
  - run. unfold local_dir; cbn [home].
    destruct (locate _) as [p|] eqn:E; [|reflexivity].
    apply locate_nonempty in E. apply String.eqb_neq in E. rewrite E. reflexivity.
Qed.

(** ** Claims about the geometry provider *)

(** C7.  [get_us_shapefile] raises [FileNotFoundError] exactly when the
    cache tree it searches (the cache it found, or the archive it has
    just extracted) holds no file ending in ".shp"; that tree is the
    cache the call leaves behind.  When the download or the extraction
    raises, no tree is searched and the error is another one. *)
Theorem get_us_shapefile_not_found_iff (w : World) :
  let (w', r) := get_us_shapefile w in
  r = Raise FileNotFoundError <->
  (searched_tree w = Some (cache w') /\ tree_has_shp (cache w') = false).
Proof.
  pose proof (get_us_shapefile_result w) as R.
  destruct (get_us_shapefile_world w) as [_ [C _]].
  destruct (get_us_shapefile w) as [w' r]. cbn [fst snd] in *.
  rewrite C, R. unfold searched_tree, provider_cache.
  destruct (cache w) as [| |children]; cbn [tree_has_shp].
  - destruct (remote w) as [[|members]|]; [| destruct (faulty w) |];
      cbn [tree_has_shp];
      try (split; [discriminate | intros [? _]; discriminate]).
    rewrite <- (locate_none_iff (local_dir w)).
    destruct (locate _); split; try tauto; try discriminate.
    intros [_ ?]; discriminate.
  - tauto.
  - rewrite <- (locate_none_iff (local_dir w)).
    destruct (locate _); split; try tauto; try discriminate.
    intros [_ ?]; discriminate.
Qed.

(** C8.  A call downloads exactly when the cache path is absent at its
    start.  A cache that exists, whatever it holds, is left as it is,
    and every call leaves the cache path existing, also when the
    download failed: however many calls follow, none of them downloads. *)
Theorem download_iff_cache_absent (w : World) :
  downloads (trace get_us_shapefile w)
    = match cache w with Absent => 1%nat | _ => 0%nat end
  /\ (In (ExtractAll (local_dir w)) (trace get_us_shapefile w) <->
      cache w = Absent /\ exists members, remote w = Some (Zip members))
  /\ match cache w with
     | Absent => True
     | c => cache (fst (get_us_shapefile w)) = c
     end
  /\ cache (fst (get_us_shapefile w)) <> Absent
  /\ forall n,
       let w1 := fst (get_us_shapefile w) in
       downloads (log (calls n w1)) = downloads (log w1)
       /\ cache (calls n w1) = cache w1.
Proof.
  assert (Later : forall n v, cache v <> Absent ->
            downloads (log (calls n v)) = downloads (log v)
            /\ cache (calls n v) = cache v).
  { induction n as [|n IH]; intros v Hv; [split; reflexivity|].
    cbn [calls].
    destruct (get_us_shapefile_world v) as [L [C _]].
    assert (C' : cache (fst (get_us_shapefile v)) = cache v).
    { rewrite C. unfold provider_cache. destruct (cache v); congruence. }
    destruct (IH (fst (get_us_shapefile v))) as [D E]; [congruence|].
    rewrite D, E, L, downloads_app. split; [|exact C'].
    unfold provider_trace. destruct (cache v); [congruence| |]; cbn; lia. }
  rewrite get_us_shapefile_trace.
  destruct (get_us_shapefile_world w) as [L [C _]].
  assert (N : cache (fst (get_us_shapefile w)) <> Absent).
  { rewrite C. unfold provider_cache.
    destruct (cache w); [|discriminate|discriminate].
    destruct (remote w) as [[|?]|]; [| destruct (faulty w) |]; discriminate. }
  repeat split.
  - unfold provider_trace. destruct (cache w); [|reflexivity|reflexivity].
    destruct (remote w) as [[|?]|]; [| destruct (faulty w) |]; reflexivity.
  - unfold provider_trace in H.
    destruct (cache w); [reflexivity| |];
      cbn in H; intuition discriminate.
  - unfold provider_trace in H.
    destruct (cache w); [|cbn in H; intuition discriminate..].
    destruct (remote w) as [[|members]|]; [| eauto |];
      cbn in H; intuition discriminate.
  - intros [Hc [members Hr]]. unfold provider_trace. rewrite Hc, Hr.
    destruct (faulty w); cbn; auto 6.
  - rewrite C. unfold provider_cache. destruct (cache w); auto.
  - exact N.
  - apply Later, N.
  - apply Later, N.
Qed.

Lemma hd_error_filter {A} (f : A -> bool) (l : list A) :
  hd_error (filter f l) = find f l.
Proof. induction l as [|a l IH]; cbn; [reflexivity|]. destruct (f a); auto. Qed.

Lemma shp_in_walk_order_filter (items : list Os.walk_item) :
  shp_in_walk_order items = shp_in_walk_order (filter item_has_shp items).
Proof.
  unfold shp_in_walk_order.
  induction items as [|[[root dirs] files] items IH]; [reflexivity|].
  cbn [flat_map filter].
  replace (item_has_shp (root, dirs, files)) with (existsb is_shp files)
    by reflexivity.
  destruct (existsb is_shp files) eqn:E.
  - cbn [flat_map]. rewrite IH. reflexivity.
  - rewrite IH.
    assert (F : filter is_shp files = []).
    { clear - E. induction files as [|f fs IHf]; [reflexivity|].
      cbn in *. apply orb_false_elim in E. destruct E as [-> E]. auto. }
    rewrite F. reflexivity.
Qed.

(** When a single directory of the walk lists shapefiles, the loops do
    return the first shapefile met. *)
Lemma locate_single_directory (items : list Os.walk_item) it :
  filter item_has_shp items = [it] -> locate items = first_encountered items.
Proof.
  intros H. rewrite locate_last_directory. unfold first_encountered.
  rewrite shp_in_walk_order_filter, H. destruct it as [[root dirs] files]. cbn.
  rewrite app_nil_r, <- hd_error_filter.
  destruct (filter is_shp files); reflexivity.
Qed.

(** C2, at a cache with shapefiles in two directories: the call returns
    the shapefile of the directory visited last, not the first shapefile
    the walk meets. *)
Theorem get_us_shapefile_two_directories :
  let w := Sample.world Sample.two_shapefile_dirs in
  snd (get_us_shapefile w)
    = Ok "/home/user/.us_state_geo/geomap-main/county_geo_files/us_counties.shp"
  /\ first_encountered (Os.walk_node (local_dir w) (cache w))
    = Some "/home/user/.us_state_geo/geomap-main/state_geo_files/us_states.shp".
Proof. split; vm_compute; reflexivity. Qed.

(** ** The join *)

Lemma mem_In (c : string) (cs : list string) : mem c cs = true <-> In c cs.
Proof.
  unfold mem. rewrite existsb_exists. split.
  - intros [x [Hx E]]. apply String.eqb_eq in E. subst. exact Hx.
  - intros H. exists c. split; [exact H | apply String.eqb_refl].
Qed.

Lemma mem_not_In (c : string) (cs : list string) : mem c cs = false <-> ~ In c cs.
Proof.
  rewrite <- mem_In. destruct (mem c cs); split; congruence.
Qed.

Lemma merge_blocks (usa : GeoDataFrame) (df : DataFrame) :
  merge usa df = flat_map (block df) (records usa).
Proof. reflexivity. Qed.

Lemma merge_app attrs (l1 l2 : list GeoRow) (df : DataFrame) :
  merge (mkGeoDataFrame attrs (l1 ++ l2)) df
  = merge (mkGeoDataFrame attrs l1) df ++ merge (mkGeoDataFrame attrs l2) df.
Proof. rewrite !merge_blocks. cbn [records]. apply flat_map_app. Qed.

Lemma block_left (df : DataFrame) (u u' : GeoRow) o :
  In (u', o) (block df u) -> u' = u.
Proof.
  unfold block. destruct (matching u df) as [|r ms].
  - intros [E|[]]. congruence.
  - intros H. apply in_map_iff in H. destruct H as [x [E _]]. congruence.
Qed.

Lemma block_nonempty (df : DataFrame) (u : GeoRow) :
  exists o, In (u, o) (block df u).
Proof.
  unfold block. destruct (matching u df) as [|r ms].
  - exists None. left. reflexivity.
  - exists (Some r). left. reflexivity.
Qed.

Lemma block_right (df : DataFrame) (u : GeoRow) (r : DataRow) :
  In (u, Some r) (block df u) <-> In r (matching u df).
Proof.
  unfold block. destruct (matching u df) as [|r0 ms] eqn:E.
  - split; [intros [H|[]]; discriminate | intros []].
  - rewrite in_map_iff. split.
    + intros [x [Hx Hin]]. congruence.
    + intros H. exists r. auto.
Qed.

Lemma merge_In (usa : GeoDataFrame) (df : DataFrame) u o :
  In (u, o) (merge usa df) <-> In u (records usa) /\ In (u, o) (block df u).
Proof.
  rewrite merge_blocks, in_flat_map. split.
  - intros [u' [Hu Hb]]. pose proof (block_left _ _ _ _ Hb). subst. auto.
  - intros [Hu Hb]. eauto.
Qed.

Lemma merge_matched (usa : GeoDataFrame) (df : DataFrame) u r :
  In (u, Some r) (merge usa df) ->
  In u (records usa) /\ In r (rows df) /\ key_eqb (NAME u) (State r) = true.
Proof.
  rewrite merge_In, block_right. unfold matching. rewrite filter_In. tauto.
Qed.

Lemma merge_unmatched (usa : GeoDataFrame) (df : DataFrame) u :
  In u (records usa) -> matching u df = [] ->
  In (u, None) (merge usa df)
  /\ forall o, In (u, o) (merge usa df) -> o = None.
Proof.
  intros Hu Hm. split.
  - apply merge_In. split; [exact Hu|]. unfold block. rewrite Hm. left; reflexivity.
  - intros o H. apply merge_In in H. destruct H as [_ H].
    unfold block in H. rewrite Hm in H. destruct H as [E|[]]. congruence.
Qed.

Lemma matching_nil_iff (df : DataFrame) (u : GeoRow) :
  matching u df = [] <->
  forall r, In r (rows df) -> key_eqb (NAME u) (State r) = false.
Proof.
  unfold matching. split.
  - intros H r Hr. destruct (key_eqb (NAME u) (State r)) eqn:E; [|reflexivity].
    assert (In r (filter (fun r => key_eqb (NAME u) (State r)) (rows df)))
      by (apply filter_In; auto).
    rewrite H in *. contradiction.
  - intros H. induction (rows df) as [|r rs IH]; [reflexivity|].
    cbn. rewrite (H r (or_introl eq_refl)). apply IH.
    intros r' Hr'. apply H. right. exact Hr'.
Qed.

(** ** Loops over rows *)

Lemma traverse_Forall2 {A B} (f : A -> result B) (l : list A) (bs : list B) :
  traverse f l = Ok bs <-> Forall2 (fun a b => f a = Ok b) l bs.
Proof.
  revert bs. induction l as [|a l IH]; intros bs; cbn.
  - split.
    + intros E. injection E as <-. constructor.
    + intros H. inversion H. reflexivity.
  - destruct (f a) as [b|e] eqn:Fa; cbn.
    + destruct (traverse f l) as [bs'|e] eqn:T; cbn.
      * split.
        -- intros E. injection E as <-. constructor; [exact Fa | apply IH; reflexivity].
        -- intros H. inversion H as [|? b0 ? bs0 H1 H2]; subst.
           apply IH in H2. congruence.
      * split; [discriminate|].
        intros H. inversion H as [|? b0 ? bs0 H1 H2]; subst.
        apply IH in H2. discriminate.
    + split; [discriminate|].
      intros H. inversion H as [|? b0 ? bs0 H1 H2]; subst. congruence.
Qed.

Lemma traverse_total {A B} (f : A -> result B) (g : A -> B) (l : list A) :
  (forall a, In a l -> f a = Ok (g a)) -> traverse f l = Ok (map g l).
Proof.
  induction l as [|a l IH]; intros H; cbn; [reflexivity|].
  rewrite (H a (or_introl eq_refl)). cbn.
  rewrite IH; [reflexivity|]. intros x Hx. apply H. right. exact Hx.
Qed.

Lemma traverse_raises {A B} (f : A -> result B) (e : exn) (l : list A) :
  l <> [] -> (forall a, In a l -> f a = Raise e) -> traverse f l = Raise e.
Proof.
  destruct l as [|a l]; [congruence|]. intros _ H. cbn.
  rewrite (H a (or_introl eq_refl)). reflexivity.
Qed.

Lemma Forall2_nth_error {A B} (P : A -> B -> Prop) (l : list A) (l' : list B) :
  Forall2 P l l' ->
  forall i a, nth_error l i = Some a ->
              exists b, nth_error l' i = Some b /\ P a b.
Proof.
  induction 1 as [|x y l l' Hxy _ IH]; intros [|i] a E; cbn in *; try discriminate.
  - injection E as <-. eauto.
  - eauto.
Qed.

(** ** Minimum and maximum of a column *)

Lemma Qmin2_le_l (a b : Q) : Qmin2 a b <= a.
Proof.
  unfold Qmin2. destruct (Qle_bool a b) eqn:E.
  - apply Qle_refl.
  - destruct (Qlt_le_dec b a) as [H|H].
    + apply Qlt_le_weak, H.
    + apply Qle_bool_iff in H. congruence.
Qed.

Lemma Qmin2_le_r (a b : Q) : Qmin2 a b <= b.
Proof.
  unfold Qmin2. destruct (Qle_bool a b) eqn:E.
  - apply Qle_bool_iff, E.
  - apply Qle_refl.
Qed.

Lemma Qmax2_ge_l (a b : Q) : a <= Qmax2 a b.
Proof.
  unfold Qmax2. destruct (Qle_bool a b) eqn:E.
  - apply Qle_bool_iff, E.
  - apply Qle_refl.
Qed.

Lemma Qmax2_ge_r (a b : Q) : b <= Qmax2 a b.
Proof.
  unfold Qmax2. destruct (Qle_bool a b) eqn:E.
  - apply Qle_refl.
  - destruct (Qlt_le_dec b a) as [H|H].
    + apply Qlt_le_weak, H.
    + apply Qle_bool_iff in H. congruence.
Qed.

Lemma fold_min_spec (qs : list Q) (q : Q) :
  In (fold_left Qmin2 qs q) (q :: qs)
  /\ forall x, In x (q :: qs) -> fold_left Qmin2 qs q <= x.
Proof.
  revert q. induction qs as [|a qs IH]; intros q; cbn [fold_left].
  - split; [left; reflexivity|]. intros x [<-|[]]. apply Qle_refl.
  - destruct (IH (Qmin2 q a)) as [Hin Hle]. split.
    + destruct Hin as [E|Hin].
      * rewrite <- E. unfold Qmin2. destruct (Qle_bool q a); cbn; auto.
      * right. right. exact Hin.
    + intros x [<-|[<-|Hx]].
      * eapply Qle_trans; [apply Hle; left; reflexivity | apply Qmin2_le_l].
      * eapply Qle_trans; [apply Hle; left; reflexivity | apply Qmin2_le_r].
      * apply Hle. right. exact Hx.
Qed.

Lemma fold_max_spec (qs : list Q) (q : Q) :
  In (fold_left Qmax2 qs q) (q :: qs)
  /\ forall x, In x (q :: qs) -> x <= fold_left Qmax2 qs q.
Proof.
  revert q. induction qs as [|a qs IH]; intros q; cbn [fold_left].
  - split; [left; reflexivity|]. intros x [<-|[]]. apply Qle_refl.
  - destruct (IH (Qmax2 q a)) as [Hin Hle]. split.
    + destruct Hin as [E|Hin].
      * rewrite <- E. unfold Qmax2. destruct (Qle_bool q a); cbn; auto.
      * right. right. exact Hin.
    + intros x [<-|[<-|Hx]].
      * eapply Qle_trans; [apply Qmax2_ge_l | apply Hle; left; reflexivity].
      * eapply Qle_trans; [apply Qmax2_ge_r | apply Hle; left; reflexivity].
      * apply Hle. right. exact Hx.
Qed.

Lemma dropna_In (col : list (option Q)) (q : Q) :
  In q (dropna col) <-> In (Some q) col.
Proof.
  unfold dropna. rewrite in_flat_map. split.
  - intros [[x|] [Hx Hq]]; [|destruct Hq]. destruct Hq as [<-|[]]. exact Hx.
  - intros H. exists (Some q). split; [exact H | left; reflexivity].
Qed.

Lemma series_min_spec (col : list (option Q)) : is_min col (series_min col).
Proof.
  unfold is_min, series_min.
  destruct (dropna col) as [|q qs] eqn:E.
  - intros q H. apply dropna_In in H. rewrite E in H. exact H.
  - destruct (fold_min_spec qs q) as [Hin Hle]. rewrite <- E in *. split.
    + apply dropna_In, Hin.
    + intros x Hx. apply Hle, dropna_In, Hx.
Qed.

Lemma series_max_spec (col : list (option Q)) : is_max col (series_max col).
Proof.
  unfold is_max, series_max.
  destruct (dropna col) as [|q qs] eqn:E.
  - intros q H. apply dropna_In in H. rewrite E in H. exact H.
  - destruct (fold_max_spec qs q) as [Hin Hle]. rewrite <- E in *. split.
    + apply dropna_In, Hin.
    + intros x Hx. apply Hle, dropna_In, Hx.
Qed.

(** ** The figure of a successful run *)

Lemma scale_ordered (df : DataFrame) (value_column : string) lo hi :
  vmin (scale df value_column) = Some lo ->
  vmax (scale df value_column) = Some hi ->
  lo <= hi.
Proof.
  unfold scale. cbn [vmin vmax]. intros Hlo Hhi.
  pose proof (series_min_spec (metric_column df value_column)) as Hmin.
  pose proof (series_max_spec (metric_column df value_column)) as Hmax.
  rewrite Hlo in Hmin. rewrite Hhi in Hmax. cbn in Hmin, Hmax.
  apply Hmax, Hmin.
Qed.

(** The bounds of the scale are in order, so [norm] never raises. *)
Lemma scale_never_invalid (df : DataFrame) (value_column : string) (x : Q) :
  norm_plan (scale df value_column) x <> Invalid.
Proof.
  unfold norm_plan.
  destruct (vmin (scale df value_column)) as [lo|] eqn:Hlo; [|discriminate].
  destruct (vmax (scale df value_column)) as [hi|] eqn:Hhi; [|discriminate].
  destruct (Qeq_bool lo hi); [discriminate|].
  unfold Qlt_bool.
  pose proof (scale_ordered df value_column lo hi Hlo Hhi) as H.
  apply Qle_bool_iff in H. rewrite H. discriminate.
Qed.

Lemma color_of_scale (df : DataFrame) (value_column : string) (x : option Q) :
  color_of (scale df value_column) x = Ok (shade (scale df value_column) x).
Proof.
  unfold shade. destruct x as [v|]; [|reflexivity].
  cbn. unfold Normalize_call.
  pose proof (scale_never_invalid df value_column v) as H.
  destruct (norm_plan (scale df value_column) v); cbn; congruence.
Qed.

Lemma combine_maps {A B C} (f : A -> B) (g : A -> C) (l : list A) :
  combine (map f l) (map g l) = map (fun a => (f a, g a)) l.
Proof. induction l as [|a l IH]; cbn; [reflexivity|]. rewrite IH. reflexivity. Qed.

Lemma metric_column_plain (df : DataFrame) (value_column : string) :
  value_column <> "State" ->
  metric_column df value_column
  = map (fun r => lookup value_column (cells r)) (rows df).
Proof.
  intros H. apply String.eqb_neq in H. unfold metric_column, cell_value.
  rewrite H. reflexivity.
Qed.

(** The cells of a numeric column hold no text, and their numbers are
    the metric column. *)
Lemma getitem_numbers (df : DataFrame) (value_column : string) (column : list key) :
  getitem df value_column = Ok column ->
  existsb is_text column = false ->
  map number_of column = metric_column df value_column.
Proof.
  unfold getitem, metric_column, cell_value.
  destruct (mem value_column (columns df)); cbn [negb]; [|discriminate].
  destruct (String.eqb value_column "State").
  - intros H _. injection H as <-. apply map_map.
  - intros H _. injection H as <-. rewrite map_map. apply map_ext.
    intros r. destruct (lookup value_column (cells r)); reflexivity.
Qed.

Lemma getitem_plain_no_text (df : DataFrame) (value_column : string) :
  existsb is_text
    (map (fun r => match lookup value_column (cells r) with
                   | Some q => Number q
                   | None => Missing
                   end) (rows df)) = false.
Proof.
  induction (rows df) as [|r rs IH]; [reflexivity|].
  cbn. rewrite IH. destruct (lookup value_column (cells r)); reflexivity.
Qed.

(** The result of lines 65-120, by the gates on the types and the names
    of the columns. *)
Lemma draw_map_eq (usa : GeoDataFrame) (df : DataFrame) (value_column : string) :
  draw_map usa df value_column =
  if negb (Nat.eqb (List.length (records usa)) 0) && numeric_keys df
  then Raise ValueError
  else if negb (mem value_column (columns df)) then Raise (KeyError value_column)
  else if text_metric df value_column then
    if forallb is_text (map State (rows df)) then Raise ValueError
    else Raise TypeError
  else if negb (mem value_column (merged_columns usa df))
       then Raise (KeyError value_column)
  else if negb (mem "geometry" (merged_columns usa df)) then Raise AttributeError
  else if negb (mem "STUSPS" (merged_columns usa df))
          && negb (Nat.eqb (List.length (merge usa df)) 0)
       then Raise (KeyError "STUSPS")
  else Ok (figure_of usa df value_column).
Proof.
  unfold draw_map, pd_merge.
  destruct (negb (Nat.eqb (List.length (records usa)) 0) && numeric_keys df);
    cbn [rbind]; [reflexivity|].
  destruct (getitem df value_column) as [column|e] eqn:G.
  2:{ unfold getitem in G.
      destruct (mem value_column (columns df)); cbn [negb] in *;
        [destruct (String.eqb value_column "State"); discriminate|].
      injection G as <-. reflexivity. }
  cbn [rbind].
  assert (M : mem value_column (columns df) = true).
  { unfold getitem in G. destruct (mem value_column (columns df));
      [reflexivity | discriminate]. }
  rewrite M. cbn [negb].
  assert (T : existsb is_text column = text_metric df value_column).
  { unfold getitem in G. rewrite M in G. cbn [negb] in G. unfold text_metric.
    destruct (String.eqb value_column "State"); injection G as <-.
    - reflexivity.
    - apply getitem_plain_no_text. }
  unfold Series_min, Series_max. rewrite T.
  destruct (text_metric df value_column) eqn:TM.
  - assert (column = map State (rows df)).
    { unfold text_metric in TM. apply andb_true_iff in TM. destruct TM as [E _].
      unfold getitem in G. rewrite M, E in G. cbn [negb] in G. congruence. }
    subst column.
    destruct (forallb is_text (map State (rows df))); reflexivity.
  - cbn [rbind Normalize_init].
    rewrite (getitem_numbers df value_column column G)
      by (rewrite T; reflexivity).
    fold (scale df value_column).
    unfold merged_getitem.
    destruct (mem value_column (merged_columns usa df)); cbn [negb rbind];
      [|reflexivity].
    rewrite (traverse_total _ (shade (scale df value_column)))
      by (intros; apply color_of_scale).
    cbn [rbind].
    destruct (mem "geometry" (merged_columns usa df)); cbn [negb rbind];
      [|reflexivity].
    unfold annotate, figure_of.
    destruct (mem "STUSPS" (merged_columns usa df)); cbn [negb andb].
    + rewrite (traverse_total _ (label value_column)) by reflexivity.
      cbn [rbind]. rewrite map_map, combine_maps. reflexivity.
    + destruct (merge usa df) as [|row rest]; cbn; reflexivity.
Qed.

Lemma draw_map_ok (usa : GeoDataFrame) (df : DataFrame) (value_column : string) fig :
  draw_map usa df value_column = Ok fig ->
  fig = figure_of usa df value_column /\ In value_column (columns df).
Proof.
  rewrite draw_map_eq.
  destruct (negb (Nat.eqb (List.length (records usa)) 0) && numeric_keys df);
    [discriminate|].
  destruct (mem value_column (columns df)) eqn:E; cbn [negb]; [|discriminate].
  apply mem_In in E.
  repeat match goal with
         | |- context [if ?b then _ else _] => destruct b; try discriminate
         end.
  intros H. injection H as <-. auto.
Qed.

(** A run that reaches the figure with a row attached to a joined record
    has a key column of text, so that the metric column is another
    column. *)
Lemma attached_row_plain_metric (usa : GeoDataFrame) (df : DataFrame)
    (value_column : string) fig (u : GeoRow) (r : DataRow) :
  draw_map usa df value_column = Ok fig ->
  In (u, Some r) (merge usa df) ->
  String.eqb value_column "State" = false.
Proof.
  rewrite draw_map_eq. intros H Hin.
  apply merge_matched in Hin. destruct Hin as [Hu [Hr _]].
  destruct (String.eqb value_column "State") eqn:E; [exfalso|reflexivity].
  assert (A : negb (Nat.eqb (List.length (records usa)) 0) = true)
    by (destruct (records usa); [destruct Hu | reflexivity]).
  assert (B : negb (Nat.eqb (List.length (rows df)) 0) = true)
    by (destruct (rows df); [destruct Hr | reflexivity]).
  unfold numeric_keys, text_metric in H. rewrite A, B, E in H. cbn [andb] in H.
  assert (C : forallb (fun r => negb (is_text (State r))) (rows df)
              = negb (existsb is_text (map State (rows df)))).
  { clear. induction (rows df) as [|x xs IH]; [reflexivity|].
    cbn. rewrite IH. destruct (is_text (State x)); reflexivity. }
  rewrite C in H.
  destruct (existsb is_text (map State (rows df))); cbn [negb] in H;
    [|discriminate].
  destruct (mem value_column (columns df)); cbn [negb] in H; [|discriminate].
  destruct (forallb is_text (map State (rows df))); discriminate.
Qed.

Lemma every_polygon_drawn_and_labelled
    (usa : GeoDataFrame) (df : DataFrame) (value_column : string) fig :
  draw_map usa df value_column = Ok fig ->
  map fst (patches fig) = map geometry_of (merge usa df)
  /\ map xy (annotations fig) = map geometry_of (merge usa df).
Proof.
  intros H. apply draw_map_ok in H. destruct H as [-> _].
  unfold figure_of. cbn [patches annotations]. rewrite !map_map. split.
  - reflexivity.
  - apply map_ext. intros row. unfold label, geometry_of.
    destruct (value_of value_column row); reflexivity.
Qed.

(** ** Claims about the join, the colours and the labels *)

(** C1.  In a run that reaches the figure, the joined record set holds
    every boundary record of the geometry source, unchanged, and every
    joined record is drawn and labelled.  A boundary record that no input
    row matches is joined once, without a row; a joined record without a
    row is drawn in the grey "#DEDEDE" and labelled with its code alone.
    When no input row matches any boundary record, every region is grey
    and labelled with its code alone. *)
Theorem every_polygon_in_output
    (usa : GeoDataFrame) (df : DataFrame) (value_column : string) (fig : Figure) :
  draw_map usa df value_column = Ok fig ->
  (forall u, In u (records usa) -> exists o, In (u, o) (merge usa df))
  /\ map fst (patches fig) = map geometry_of (merge usa df)
  /\ map xy (annotations fig) = map geometry_of (merge usa df)
  /\ (forall u, In u (records usa) -> matching u df = [] ->
        In (u, None) (merge usa df)
        /\ forall o, In (u, o) (merge usa df) -> o = None)
  /\ (forall i u, nth_error (merge usa df) i = Some (u, None) ->
        nth_error (patches fig) i = Some (geometry u, grey)
        /\ nth_error (annotations fig) i = Some (code_only u))
  /\ ((forall u r, In u (records usa) -> In r (rows df) ->
                   key_eqb (NAME u) (State r) = false) ->
      merge usa df = map (fun u => (u, None)) (records usa)
      /\ patches fig = map (fun u => (geometry u, grey)) (records usa)
      /\ annotations fig = map code_only (records usa)).
Proof.
  intros H. apply draw_map_ok in H. destruct H as [-> _].
  unfold figure_of. cbn [patches annotations].
  split; [|split; [|split; [|split; [|split]]]].
  - intros u Hu. destruct (block_nonempty df u) as [o Ho].
    exists o. apply merge_In. auto.
  - rewrite map_map. reflexivity.
  - rewrite map_map. apply map_ext. intros row. unfold label, geometry_of.
    destruct (value_of value_column row); reflexivity.
  - apply merge_unmatched.
  - intros i u E. split.
    + rewrite nth_error_map, E. reflexivity.
    + rewrite nth_error_map, E. reflexivity.
  - intros Hno.
    assert (M : merge usa df = map (fun u => (u, None)) (records usa)).
    { rewrite merge_blocks. induction (records usa) as [|u us IH]; [reflexivity|].
      cbn [flat_map map]. rewrite IH by (intros; apply Hno; auto; right; assumption).
      unfold block.
      replace (matching u df) with (@nil DataRow); [reflexivity|].
      symmetry. apply matching_nil_iff. intros r Hr. apply Hno; auto. left; reflexivity. }
    rewrite M, !map_map. auto.
Qed.

(** C1 at the sample tables: Nevada has no row. *)
Lemma every_polygon_in_output_witness :
  draw_map Sample.usa Sample.df "Property_Tax_Burden"
    = Ok (figure_of Sample.usa Sample.df "Property_Tax_Burden")
  /\ map fst (patches (figure_of Sample.usa Sample.df "Property_Tax_Burden"))
     = map geometry_of (merge Sample.usa Sample.df).
Proof.
  split; [vm_compute; reflexivity|].
  apply (every_polygon_in_output Sample.usa Sample.df "Property_Tax_Burden").
  vm_compute; reflexivity.
Defined.

(** The division of [norm] never has a zero divisor. *)
Lemma norm_divides_by_nonzero (norm : Normalize) (x n d : Q) :
  norm_plan norm x = Divide n d -> ~ d == 0.
Proof.
  unfold norm_plan.
  destruct (vmin norm) as [lo|]; [|discriminate].
  destruct (vmax norm) as [hi|]; [|discriminate].
  destruct (Qeq_bool lo hi) eqn:E; [discriminate|].
  destruct (Qlt_bool hi lo); [discriminate|].
  intros H. injection H as _ <-. intros Z.
  apply Qeq_bool_neq in E. apply E.
  setoid_replace lo with (hi - (hi - lo)) by ring.
  rewrite Z. ring.
Qed.

(** With all present values of the column equal, the scale is
    degenerate. *)
Lemma scale_degenerate (df : DataFrame) (value_column : string) (v q : Q) :
  (forall r x, In r (rows df) -> cell_value value_column r = Some x -> x == v) ->
  In (Some q) (metric_column df value_column) ->
  exists lo hi, vmin (scale df value_column) = Some lo
                /\ vmax (scale df value_column) = Some hi
                /\ Qeq_bool lo hi = true.
Proof.
  intros Hall Hq.
  assert (A : forall x, In (Some x) (metric_column df value_column) -> x == v).
  { intros x Hx. unfold metric_column in Hx. apply in_map_iff in Hx.
    destruct Hx as [r [E Hr]]. eapply Hall; eauto. }
  pose proof (series_min_spec (metric_column df value_column)) as Hmin.
  pose proof (series_max_spec (metric_column df value_column)) as Hmax.
  unfold scale. cbn [vmin vmax].
  destruct (series_min (metric_column df value_column)) as [lo|];
    [|exfalso; exact (Hmin q Hq)].
  destruct (series_max (metric_column df value_column)) as [hi|];
    [|exfalso; exact (Hmax q Hq)].
  exists lo, hi. repeat split. apply Qeq_bool_iff.
  destruct Hmin as [Hlo _]. destruct Hmax as [Hhi _].
  rewrite (A lo Hlo), (A hi Hhi). reflexivity.
Qed.

Lemma value_of_in_column (usa : GeoDataFrame) (df : DataFrame)
    (value_column : string) (row : MergedRow) (q : Q) :
  In row (merge usa df) -> value_of value_column row = Some q ->
  exists r, In r (rows df) /\ cell_value value_column r = Some q.
Proof.
  destruct row as [u [r|]]; cbn; [|discriminate].
  intros H E. apply merge_matched in H. exists r. tauto.
Qed.

(** C3, as the code has it.  When all present values of the metric
    column are equal, [norm] takes its branch for equal bounds, which
    fills in 0 and divides nothing, and every joined record with a value
    is drawn in one colour: entry 0 of the colour table, the low end
    "#85011C" of the gradient.  Where [norm] does divide, the divisor is
    not zero. *)
Theorem equal_values_get_low_end
    (usa : GeoDataFrame) (df : DataFrame) (value_column : string)
    (fig : Figure) (v : Q) :
  draw_map usa df value_column = Ok fig ->
  (forall r x, In r (rows df) -> lookup value_column (cells r) = Some x -> x == v) ->
  (forall i row q,
      nth_error (merge usa df) i = Some row ->
      value_of value_column row = Some q ->
      norm_plan (cb_norm (colorbar fig)) q = Fill0
      /\ nth_error (patches fig) i = Some (geometry (fst row), low_end))
  /\ (forall x n d, norm_plan (cb_norm (colorbar fig)) x = Divide n d -> ~ d == 0).
Proof.
  intros H Hall. pose proof (attached_row_plain_metric usa df value_column fig) as Hplain.
  specialize (fun u r => Hplain u r H).
  apply draw_map_ok in H. destruct H as [-> _].
  unfold figure_of. cbn [patches colorbar cb_norm].
  split; [|intros x n d; apply norm_divides_by_nonzero].
  intros i row q Hi Hq.
  destruct (value_of_in_column usa df value_column row q) as [r [Hr Hl]];
    [eapply nth_error_In; eauto | exact Hq |].
  assert (P0 : String.eqb value_column "State" = false).
  { destruct row as [u [r0|]]; [|discriminate].
    apply (Hplain u r0). eapply nth_error_In; eauto. }
  assert (Hall' : forall r x, In r (rows df) ->
                              cell_value value_column r = Some x -> x == v).
  { intros r0 x Hr0. unfold cell_value. rewrite P0. apply Hall, Hr0. }
  destruct (scale_degenerate df value_column v q Hall') as [lo [hi [Hlo [Hhi E]]]].
  { unfold metric_column. apply in_map_iff. exists r. auto. }
  assert (P : norm_plan (scale df value_column) q = Fill0).
  { unfold norm_plan. rewrite Hlo, Hhi, E. reflexivity. }
  split; [exact P|].
  rewrite nth_error_map, Hi. cbn [option_map]. rewrite Hq.
  unfold shade, color_of, Normalize_call. rewrite P. reflexivity.
Qed.

Lemma equal_values_get_low_end_witness :
  draw_map Sample.usa Sample.flat_df "Property_Tax_Burden"
    = Ok (figure_of Sample.usa Sample.flat_df "Property_Tax_Burden")
  /\ nth_error (patches (figure_of Sample.usa Sample.flat_df "Property_Tax_Burden")) 1
     = Some (geometry Sample.texas, low_end).
Proof.
  split; [vm_compute; reflexivity|].
  refine (proj2 (proj1 (equal_values_get_low_end
                          Sample.usa Sample.flat_df "Property_Tax_Burden" _ 5 _ _)
                       1%nat (Sample.texas, Some (Sample.data_row "Texas" 5)) 5 _ _)).
  - vm_compute; reflexivity.
  - intros r x [<-|[<-|[]]] E; vm_compute in E; injection E as <-; reflexivity.
  - reflexivity.
  - reflexivity.
Defined.

(** C3 as stated fails: with all values equal to 5, California is drawn
    in the low end of the gradient, which is not the colour at its
    middle. *)
Lemma equal_values_not_midpoint :
  (forall r x, In r (rows Sample.flat_df) ->
               lookup "Property_Tax_Burden" (cells r) = Some x -> x == 5)
  /\ exists fig c,
       draw_map Sample.usa Sample.flat_df "Property_Tax_Burden" = Ok fig
       /\ nth_error (merge Sample.usa Sample.flat_df) 0
          = Some (Sample.california, Some (Sample.data_row "California" 5))
       /\ nth_error (patches fig) 0 = Some (geometry Sample.california, c)
       /\ color_eqb c midpoint = false
       /\ c <> midpoint.
Proof.
  split.
  - intros r x [<-|[<-|[]]] E; vm_compute in E; injection E as <-; reflexivity.
  - exists (figure_of Sample.usa Sample.flat_df "Property_Tax_Burden"), low_end.
    repeat split; try (vm_compute; reflexivity).
    vm_compute. discriminate.
Qed.

(** C5, as the code has it.  The bounds of the colour scale are the
    least and the greatest present value of the metric column of the
    input table, over all its rows, whether or not their state name
    matches a boundary record (NaN when the column has no present
    value); every joined record is coloured through that scale, and the
    values of the joined records lie between the bounds. *)
Theorem scale_bounds_over_input_table
    (usa : GeoDataFrame) (df : DataFrame) (value_column : string) (fig : Figure) :
  draw_map usa df value_column = Ok fig ->
  is_min (metric_column df value_column) (vmin (cb_norm (colorbar fig)))
  /\ is_max (metric_column df value_column) (vmax (cb_norm (colorbar fig)))
  /\ (forall i row,
        nth_error (merge usa df) i = Some row ->
        exists c, nth_error (patches fig) i = Some (geometry (fst row), c)
                  /\ color_of (cb_norm (colorbar fig)) (value_of value_column row)
                     = Ok c)
  /\ (forall row q,
        In row (merge usa df) -> value_of value_column row = Some q ->
        exists lo hi, vmin (cb_norm (colorbar fig)) = Some lo
                      /\ vmax (cb_norm (colorbar fig)) = Some hi
                      /\ lo <= q <= hi).
Proof.
  intros H. apply draw_map_ok in H. destruct H as [-> _].
  unfold figure_of. cbn [patches colorbar cb_norm].
  pose proof (series_min_spec (metric_column df value_column)) as Hmin.
  pose proof (series_max_spec (metric_column df value_column)) as Hmax.
  split; [exact Hmin|]. split; [exact Hmax|]. split.
  - intros i row Hi.
    exists (shade (scale df value_column) (value_of value_column row)).
    rewrite nth_error_map, Hi. split; [reflexivity | apply color_of_scale].
  - intros row q Hrow Hq.
    destruct (value_of_in_column usa df value_column row q Hrow Hq) as [r [Hr Hl]].
    assert (C : In (Some q) (metric_column df value_column)).
    { unfold metric_column. apply in_map_iff. exists r. auto. }
    unfold scale. cbn [vmin vmax].
    destruct (series_min (metric_column df value_column)) as [lo|];
      [|exfalso; exact (Hmin q C)].
    destruct (series_max (metric_column df value_column)) as [hi|];
      [|exfalso; exact (Hmax q C)].
    exists lo, hi. repeat split; [apply Hmin | apply Hmax]; exact C.
Qed.

Lemma scale_bounds_over_input_table_witness :
  draw_map Sample.usa Sample.far_df "Property_Tax_Burden"
    = Ok (figure_of Sample.usa Sample.far_df "Property_Tax_Burden")
  /\ is_max (metric_column Sample.far_df "Property_Tax_Burden")
            (vmax (cb_norm (colorbar
               (figure_of Sample.usa Sample.far_df "Property_Tax_Burden")))).
Proof.
  split; [vm_compute; reflexivity|].
  apply (scale_bounds_over_input_table Sample.usa Sample.far_df "Property_Tax_Burden").
  vm_compute; reflexivity.
Defined.

(** C5 as stated fails: with a row for a state the boundary table does
    not have, the upper bound of the scale is that row's value, 100,
    while the greatest value of the joined records is 1. *)
Lemma scale_bounds_not_over_joined_records :
  exists fig,
    draw_map Sample.usa Sample.far_df "Property_Tax_Burden" = Ok fig
    /\ vmax (cb_norm (colorbar fig)) = Some 100
    /\ series_max (map (value_of "Property_Tax_Burden")
                       (merge Sample.usa Sample.far_df)) = Some 1
    /\ vmax (cb_norm (colorbar fig))
       <> series_max (map (value_of "Property_Tax_Burden")
                          (merge Sample.usa Sample.far_df))
    /\ ~ 100 == 1.
Proof.
  exists (figure_of Sample.usa Sample.far_df "Property_Tax_Burden").
  repeat split; try (vm_compute; reflexivity); vm_compute; discriminate.
Qed.





(** C10.  A boundary record matched by two or more input rows is joined
    once per matching row, in the order of the rows, at its place among
    the boundary records; it is drawn once and labelled once for each of
    these joined records. *)
Theorem duplicate_rows_repeat_polygon
    (attrs : list string) (before after : list GeoRow) (u : GeoRow)
    (df : DataFrame) (value_column : string) (fig : Figure) :
  (2 <= List.length (matching u df))%nat ->
  draw_map (mkGeoDataFrame attrs (before ++ u :: after)) df value_column = Ok fig ->
  merge (mkGeoDataFrame attrs (before ++ u :: after)) df
  = merge (mkGeoDataFrame attrs before) df
    ++ map (fun r => (u, Some r)) (matching u df)
    ++ merge (mkGeoDataFrame attrs after) df
  /\ map fst (patches fig)
     = map geometry_of (merge (mkGeoDataFrame attrs before) df)
       ++ repeat (geometry u) (List.length (matching u df))
       ++ map geometry_of (merge (mkGeoDataFrame attrs after) df)
  /\ map xy (annotations fig)
     = map geometry_of (merge (mkGeoDataFrame attrs before) df)
       ++ repeat (geometry u) (List.length (matching u df))
       ++ map geometry_of (merge (mkGeoDataFrame attrs after) df).
Proof.
  intros Hk H.
  destruct (every_polygon_drawn_and_labelled _ _ _ _ H) as [Hp Ha].
  assert (M : merge (mkGeoDataFrame attrs (before ++ u :: after)) df
              = merge (mkGeoDataFrame attrs before) df
                ++ map (fun r => (u, Some r)) (matching u df)
                ++ merge (mkGeoDataFrame attrs after) df).
  { rewrite merge_app. f_equal.
    change (u :: after) with ([u] ++ after). rewrite merge_app. f_equal.
    rewrite merge_blocks. cbn [records flat_map]. rewrite app_nil_r.
    unfold block. destruct (matching u df); [cbn in Hk; lia | reflexivity]. }
  assert (G : map geometry_of (map (fun r => (u, Some r)) (matching u df))
              = repeat (geometry u) (List.length (matching u df))).
  { rewrite map_map. clear. induction (matching u df) as [|r rs IH]; [reflexivity|].
    cbn [map repeat List.length]. rewrite IH. reflexivity. }
  split; [exact M|].
  rewrite Hp, Ha, M, !map_app, G. auto.
Qed.

Lemma duplicate_rows_repeat_polygon_witness :
  (2 <= List.length (matching Sample.california Sample.twice_df))%nat
  /\ map fst (patches (figure_of Sample.usa Sample.twice_df "Property_Tax_Burden"))
     = [geometry Sample.california; geometry Sample.california;
        geometry Sample.texas; geometry Sample.nevada].
Proof.
  split; [vm_compute; lia|].
  refine (proj1 (proj2 (duplicate_rows_repeat_polygon
                          ["STATEFP"; "ALAND"] [] [Sample.texas; Sample.nevada]
                          Sample.california Sample.twice_df
                          "Property_Tax_Burden" _ _ _))).
  - vm_compute; lia.
  - vm_compute; reflexivity.
Defined.

(** ** The order of validation and geometry access *)

Lemma read_csv_world (data_path : string) (w : World) :
  let w1 := fst (read_csv data_path w) in
  log w1 = log w ++ [ReadCsv data_path]
  /\ cache w1 = cache w /\ remote w1 = remote w /\ home w1 = home w
  /\ saved w1 = saved w /\ tables w1 = tables w.
Proof.
  unfold read_csv. run.
  destruct (existsb _ (saved w)); cbn; [repeat split; reflexivity|].
  destruct (find _ (tables w)); cbn; repeat split; reflexivity.
Qed.

Lemma read_file_world (shp_path : string) (w : World) :
  let w1 := fst (read_file shp_path w) in
  log w1 = log w ++ [ReadFile shp_path]
  /\ cache w1 = cache w /\ saved w1 = saved w.
Proof.
  unfold read_file. run.
  destruct (find _ _) as [[p [usa|]]|]; cbn; repeat split; reflexivity.
Qed.



(** [plot_us_map], step by step *)
Lemma plot_us_map_eq (data_path value_column output_file : string) (w : World) :
  plot_us_map data_path value_column output_file w =
  match read_csv data_path w with
  | (w1, Raise e) => (w1, Raise e)
  | (w1, Ok df) =>
      if negb (mem "State" (columns df)) then (w1, Raise ValueError)
      else
        match get_us_shapefile w1 with
        | (w2, Raise e) => (w2, Raise e)
        | (w2, Ok shp_path) =>
            match read_file shp_path w2 with
            | (w3, Raise e) => (w3, Raise e)
            | (w3, Ok usa) =>
                match draw_map usa df value_column with
                | Raise e => (w3, Raise e)
                | Ok fig => finish output_file fig w3
                end
            end
        end
  end.
Proof.
  unfold plot_us_map, bind at 1.
  destruct (read_csv data_path w) as [w1 [df|e]]; [|reflexivity].
  destruct (negb (mem "State" (columns df))); [reflexivity|].
  unfold bind at 1.
  destruct (get_us_shapefile w1) as [w2 [shp_path|e]]; [|reflexivity].
  unfold bind at 1.
  destruct (read_file shp_path w2) as [w3 [usa|e]]; [|reflexivity].
  unfold bind at 1, lift.
  destruct (draw_map usa df value_column) as [fig|e]; reflexivity.
Qed.

Lemma finish_world (output_file : string) (fig : Figure) (w : World) :
  let (w', r) := finish output_file fig w in
  r = snd (savefig output_file fig w)
  /\ log w' = log w ++ Savefig output_file ::
                       match r with
                       | Ok _ => [Print ("✅ Map saved as " ++ output_file);
                                  PltClose]
                       | Raise _ => []
                       end
  /\ saved w' = match r with
                | Ok _ => (save_target output_file, fig) :: saved w
                | Raise _ => saved w
                end
  /\ cache w' = cache w.
Proof.
  unfold finish, savefig. run.
  destruct (negb _ && negb _); cbn; [repeat split; reflexivity|].
  destruct (find _ (unwritable w)) as [b|]; cbn;
    rewrite <- ?app_assoc; repeat split; reflexivity.
Qed.

(** A run that returns has saved the figure of lines 65-120, made from
    the table it read and the boundary table of the shapefile it found. *)
Lemma plot_us_map_saves_figure
    (data_path value_column output_file : string) (w w' : World) :
  plot_us_map data_path value_column output_file w = (w', Ok tt) ->
  exists w1 df w2 shp_path w3 usa,
    read_csv data_path w = (w1, Ok df)
    /\ get_us_shapefile w1 = (w2, Ok shp_path)
    /\ read_file shp_path w2 = (w3, Ok usa)
    /\ draw_map usa df value_column = Ok (figure_of usa df value_column)
    /\ saved w'
       = (save_target output_file, figure_of usa df value_column) :: saved w3.
Proof.
  rewrite plot_us_map_eq.
  destruct (read_csv data_path w) as [w1 [df|e]] eqn:R; [|discriminate].
  destruct (negb (mem "State" (columns df))); [discriminate|].
  destruct (get_us_shapefile w1) as [w2 [shp_path|e]] eqn:G; [|discriminate].
  destruct (read_file shp_path w2) as [w3 [usa|e]] eqn:F; [|discriminate].
  destruct (draw_map usa df value_column) as [fig|e] eqn:D; [|discriminate].
  pose proof (finish_world output_file fig w3) as K.
  destruct (finish output_file fig w3) as [v r].
  intros H. injection H as -> ->. destruct K as [_ [_ [K _]]].
  destruct (draw_map_ok _ _ _ _ D) as [-> _].
  exists w1, df, w2, shp_path, w3, usa. repeat split; auto.
Qed.

(** C4.  When the table read from the input file has no 'State' column,
    [plot_us_map] raises [ValueError] in the world the read left: the
    only I/O of the run is the read of the input file, so the geometry
    provider is not called, nothing is downloaded, the cache is as it
    was and no image is written. *)
Theorem missing_state_column_fails_first
    (data_path value_column output_file : string) (w w1 : World) (df : DataFrame) :
  read_csv data_path w = (w1, Ok df) ->
  ~ In "State" (columns df) ->
  plot_us_map data_path value_column output_file w = (w1, Raise ValueError)
  /\ trace (plot_us_map data_path value_column output_file) w = [ReadCsv data_path]
  /\ cache w1 = cache w
  /\ saved w1 = saved w.
Proof.
  intros R N. apply mem_not_In in N.
  assert (P : plot_us_map data_path value_column output_file w
              = (w1, Raise ValueError)).
  { rewrite plot_us_map_eq, R, N. reflexivity. }
  destruct (read_csv_world data_path w) as [L [C [_ [_ [Sv _]]]]].
  rewrite R in L, C, Sv. cbn [fst] in L, C, Sv.
  repeat split; auto.
  unfold trace. rewrite P. cbn [fst]. rewrite L. apply skipn_length_app.
Qed.

Lemma missing_state_column_fails_first_witness :
  ~ In "State" (columns Sample.no_state_df)
  /\ trace (plot_us_map "data.txt" "Property_Tax_Burden" "out.png") Sample.no_state_world
     = [ReadCsv "data.txt"].
Proof.
  assert (N : ~ In "State" (columns Sample.no_state_df)).
  { apply mem_not_In. reflexivity. }
  split; [exact N|].
  refine (proj1 (proj2 (missing_state_column_fails_first
                          "data.txt" "Property_Tax_Burden" "out.png"
                          Sample.no_state_world _ Sample.no_state_df _ N))).
  vm_compute; reflexivity.
Defined.





(** * Further properties *)

(** ** Further properties of the geometry provider *)

Lemma substring_skip (a b : string) (k m : nat) :
  substring (String.length a + k) m (a ++ b) = substring k m b.
Proof. induction a as [|c a IH]; cbn; auto. Qed.

Lemma endswith_app (a b suffix : string) :
  Py.endswith b suffix = true -> Py.endswith (a ++ b) suffix = true.
Proof.
  unfold Py.endswith. rewrite string_length_app. intros H.
  apply andb_true_iff in H. destruct H as [Hle Heq].
  apply Nat.leb_le in Hle. apply andb_true_iff. split.
  - apply Nat.leb_le. lia.
  - replace (String.length a + String.length b - String.length suffix)%nat
      with (String.length a + (String.length b - String.length suffix))%nat by lia.
    rewrite substring_skip. exact Heq.
Qed.

Lemma endswith_path_join (root file suffix : string) :
  Py.endswith file suffix = true ->
  Py.endswith (Py.path_join root file) suffix = true.
Proof.
  intros H. unfold Py.path_join.
  destruct (Py.startswith file "/"); [exact H|].
  destruct (String.eqb root "" || Py.endswith root "/").
  - apply endswith_app, H.
  - apply endswith_app. apply (endswith_app "/"), H.
Qed.

Lemma filenames_In (es : list entry) (f : string) :
  In f (Os.filenames es) <-> exists shape, In (File f shape) es.
Proof.
  unfold Os.filenames. rewrite in_flat_map. split.
  - intros [[n s|n ch] [He Hf]]; [|destruct Hf].
    destruct Hf as [<-|[]]. eauto.
  - intros [shape He]. exists (File f shape). split; [exact He | left; reflexivity].
Qed.

Lemma children_walk_in_tree (top : string) (children : list entry) :
  Forall walk_in_tree children ->
  forall root dirs files f,
    In (root, dirs, files) (Os.walk_dir top children) -> In f files ->
    exists shape,
      In (Py.path_join root f, shape) (flat_map (Os.files_entry top) children).
Proof.
  intros IH root dirs files f Hit Hf. unfold Os.walk_dir in Hit.
  destruct Hit as [E|Hit].
  - injection E as <- _ <-. apply filenames_In in Hf. destruct Hf as [shape He].
    exists shape. apply in_flat_map. exists (File f shape).
    split; [exact He | left; reflexivity].
  - apply in_flat_map in Hit. destruct Hit as [e [He Hit]].
    rewrite Forall_forall in IH.
    destruct (IH e He top root dirs files f Hit Hf) as [shape Hs].
    exists shape. apply in_flat_map. eauto.
Qed.

Lemma walk_entry_in_tree (e : entry) : walk_in_tree e.
Proof.
  induction e as [n s | n ch IH] using entry_tree_ind;
    intros parent root dirs files f Hit Hf; [destruct Hit|].
  cbn [Os.files_entry].
  apply (children_walk_in_tree (Py.path_join parent n) ch IH root dirs files f);
    [exact Hit | exact Hf].
Qed.

Lemma locate_some (items : list Os.walk_item) (p : string) :
  locate items = Some p ->
  exists root dirs files f,
    In (root, dirs, files) items /\ In f files /\ is_shp f = true
    /\ p = Py.path_join root f.
Proof.
  rewrite locate_last_directory.
  destruct (rev (filter item_has_shp items)) as [|[[root dirs] files] rest] eqn:E;
    [discriminate|].
  assert (Hin : In (root, dirs, files) items).
  { assert (H : In (root, dirs, files) (rev (filter item_has_shp items)))
      by (rewrite E; left; reflexivity).
    apply in_rev, filter_In in H. tauto. }
  destruct (find is_shp files) as [f|] eqn:F; [|discriminate].
  intros H. injection H as <-. apply find_some in F.
  exists root, dirs, files, f. tauto.
Qed.

(** X1.  A path the provider returns ends in ".shp" and is the path of a
    regular file of the cache the call leaves. *)
Theorem returned_path_is_cached_shapefile (w w' : World) (p : string) :
  get_us_shapefile w = (w', Ok p) ->
  Py.endswith p ".shp" = true
  /\ exists shape, In (p, shape) (Os.files_below (local_dir w') (cache w')).
Proof.
  intros H.
  pose proof (get_us_shapefile_result w) as R.
  destruct (get_us_shapefile_world w) as [_ [C [Hh _]]].
  rewrite H in R, C, Hh. cbn [fst snd] in R, C, Hh.
  assert (D : local_dir w' = local_dir w) by (unfold local_dir; rewrite Hh; reflexivity).
  rewrite D, C. unfold provider_cache.
  assert (G : forall children,
             locate (Os.walk_dir (local_dir w) children) = Some p ->
             Py.endswith p ".shp" = true
             /\ exists shape,
                 In (p, shape) (Os.files_below (local_dir w) (Directory children))).
  { intros children L. apply locate_some in L.
    destruct L as [root [dirs [files [f [Hit [Hf [Hs ->]]]]]]]. split.
    - apply endswith_path_join, Hs.
    - unfold Os.files_below.
      apply (children_walk_in_tree (local_dir w) children) with (dirs := dirs)
                                                                (files := files);
        [|exact Hit|exact Hf].
      apply Forall_forall. intros e _. apply walk_entry_in_tree. }
  destruct (cache w) as [| |children].
  - destruct (remote w) as [[|members]|]; try discriminate.
    destruct (faulty w); [discriminate|].
    destruct (locate _) as [q|] eqn:L; [|discriminate].
    injection R as <-. apply G, L.
  - discriminate.
  - destruct (locate _) as [q|] eqn:L; [|discriminate].
    injection R as <-. apply G, L.
Qed.

Lemma returned_path_is_cached_shapefile_witness :
  get_us_shapefile (Sample.world (Directory Sample.unpacked))
    = (fst (get_us_shapefile (Sample.world (Directory Sample.unpacked))),
       Ok "/home/user/.us_state_geo/geomap-main/state_geo_files/us_states.shp")
  /\ Py.endswith "/home/user/.us_state_geo/geomap-main/state_geo_files/us_states.shp"
                 ".shp" = true.
Proof.
  split; [vm_compute; reflexivity|].
  refine (proj1 (returned_path_is_cached_shapefile
                   (Sample.world (Directory Sample.unpacked)) _ _ _)).
  vm_compute; reflexivity.
Defined.

(** X2.  On a cache directory the provider returns the first shapefile
    of the last directory of the walk that lists one, and raises
    [FileNotFoundError] when no directory lists one. *)
Theorem result_from_last_directory (w : World) (children : list entry) :
  cache w = Directory children ->
  snd (get_us_shapefile w) =
  match rev (filter item_has_shp (Os.walk_dir (local_dir w) children)) with
  | [] => Raise FileNotFoundError
  | (root, _, files) :: _ =>
      match find is_shp files with
      | Some file => Ok (Py.path_join root file)
      | None => Raise FileNotFoundError
      end
  end.
Proof.
  intros C. rewrite get_us_shapefile_result, C, locate_last_directory.
  destruct (rev _) as [|[[root dirs] files] rest]; [reflexivity|].
  destruct (find is_shp files); reflexivity.
Qed.

Lemma result_from_last_directory_witness :
  cache (Sample.world (Directory Sample.unpacked)) = Directory Sample.unpacked
  /\ snd (get_us_shapefile (Sample.world (Directory Sample.unpacked)))
     = Ok "/home/user/.us_state_geo/geomap-main/state_geo_files/us_states.shp".
Proof.
  split; [reflexivity|].
  rewrite (result_from_last_directory
             (Sample.world (Directory Sample.unpacked)) Sample.unpacked eq_refl).
  vm_compute; reflexivity.
Defined.

(** X3.  When exactly one directory of the cache lists shapefiles, the
    provider returns the first shapefile the walk meets. *)
Theorem single_directory_first_shapefile
    (w : World) (children : list entry) (it : Os.walk_item) :
  cache w = Directory children ->
  filter item_has_shp (Os.walk_dir (local_dir w) children) = [it] ->
  exists p,
    snd (get_us_shapefile w) = Ok p
    /\ first_encountered (Os.walk_dir (local_dir w) children) = Some p.
Proof.
  intros C F. rewrite get_us_shapefile_result, C.
  rewrite <- (locate_single_directory _ it F).
  destruct (locate _) as [p|] eqn:L; [eauto|].
  rewrite locate_fold in L. apply fold_scan_none in L. destruct L as [_ L].
  assert (In it (filter item_has_shp (Os.walk_dir (local_dir w) children)))
    as Hin by (rewrite F; left; reflexivity).
  apply filter_In in Hin. destruct Hin as [Hin Hs].
  assert (existsb item_has_shp (Os.walk_dir (local_dir w) children) = true)
    by (apply existsb_exists; eauto).
  congruence.
Qed.

Lemma single_directory_first_shapefile_witness :
  cache (Sample.world (Directory Sample.unpacked)) = Directory Sample.unpacked
  /\ exists p,
       snd (get_us_shapefile (Sample.world (Directory Sample.unpacked))) = Ok p
       /\ first_encountered
            (Os.walk_dir (local_dir (Sample.world (Directory Sample.unpacked)))
                         Sample.unpacked) = Some p.
Proof.
  split; [reflexivity|].
  apply (single_directory_first_shapefile
           (Sample.world (Directory Sample.unpacked)) Sample.unpacked
           ("/home/user/.us_state_geo/geomap-main/state_geo_files", [],
            ["us_states.dbf"; "us_states.shp"])).
  - reflexivity.
  - vm_compute; reflexivity.
Defined.

Lemma downloads_provider_trace (w : World) :
  downloads (provider_trace w)
  = match cache w with Absent => 1%nat | _ => 0%nat end.
Proof.
  unfold provider_trace.
  destruct (cache w); [destruct (remote w) as [[|?]|]; [|destruct (faulty w)|]| |];
    reflexivity.
Qed.

(** X4.  A second call, in the world the first call left, sends no
    request and returns the result of the search of the cache the first
    call left: the path the first call returned, when it returned one;
    [FileNotFoundError] after a failed download or an archive that could
    not be opened, which leave an empty directory; after an extraction
    that broke off, the result of the search among the members written
    before the break. *)
Theorem second_call_result (w : World) :
  downloads (trace get_us_shapefile (fst (get_us_shapefile w))) = 0%nat
  /\ snd (get_us_shapefile (fst (get_us_shapefile w)))
     = search (local_dir w) (provider_cache w)
  /\ match snd (get_us_shapefile w) with
     | Ok p => snd (get_us_shapefile (fst (get_us_shapefile w))) = Ok p
     | Raise BadZipFile =>
         (remote w = Some NotAZip ->
          snd (get_us_shapefile (fst (get_us_shapefile w)))
          = Raise FileNotFoundError)
         /\ (forall members written,
               remote w = Some (Zip members) -> faulty w = Some written ->
               snd (get_us_shapefile (fst (get_us_shapefile w)))
               = search (local_dir w) (Directory written))
     | Raise _ =>
         snd (get_us_shapefile (fst (get_us_shapefile w)))
         = Raise FileNotFoundError
     end.
Proof.
  destruct (get_us_shapefile_world w) as [_ [C [Hh _]]].
  assert (D : local_dir (fst (get_us_shapefile w)) = local_dir w)
    by (unfold local_dir; rewrite Hh; reflexivity).
  assert (E : snd (get_us_shapefile (fst (get_us_shapefile w)))
              = search (local_dir w) (provider_cache w)).
  { rewrite (get_us_shapefile_result (fst (get_us_shapefile w))), D, C.
    unfold provider_cache, search.
    destruct (cache w) as [| |children]; [|reflexivity|reflexivity].
    destruct (remote w) as [[|members]|]; try reflexivity.
    destruct (faulty w); reflexivity. }
  split; [|split; [exact E|]].
  - rewrite get_us_shapefile_trace, downloads_provider_trace, C.
    unfold provider_cache.
    destruct (cache w); [|reflexivity|reflexivity].
    destruct (remote w) as [[|members]|]; try reflexivity.
    destruct (faulty w); reflexivity.
  - rewrite E, (get_us_shapefile_result w). unfold provider_cache, search.
    destruct (cache w) as [| |children].
    + destruct (remote w) as [[|members]|]; try reflexivity.
      * split; [reflexivity|]. intros ? ? ?; discriminate.
      * destruct (faulty w) as [written|].
        -- split; [discriminate|]. intros ? ? _ F. injection F as <-. reflexivity.
        -- destruct (locate _); reflexivity.
    + reflexivity.
    + destruct (locate _); reflexivity.
Qed.

(** X4 on a first run whose extraction breaks off after the shapefile is
    written: the first call raises, the second returns the shapefile. *)
Lemma second_call_result_witness :
  snd (get_us_shapefile Sample.broken_world) = Raise BadZipFile
  /\ snd (get_us_shapefile (fst (get_us_shapefile Sample.broken_world)))
     = Ok "/home/user/.us_state_geo/geomap-main/state_geo_files/us_states.shp".
Proof.
  split; [vm_compute; reflexivity|].
  rewrite (proj1 (proj2 (second_call_result Sample.broken_world))).
  vm_compute; reflexivity.
Defined.

(** ** Further properties of a run of [plot_us_map] *)

Lemma plot_us_map_log (data_path value_column output_file : string) (w : World) :
  log (fst (plot_us_map data_path value_column output_file w))
  = log w ++ run_trace data_path value_column output_file w.
Proof.
  rewrite plot_us_map_eq. unfold run_trace.
  destruct (read_csv_world data_path w) as [L1 _].
  destruct (read_csv data_path w) as [w1 [df|e]]; cbn [fst] in L1; [|exact L1].
  destruct (mem "State" (columns df)); cbn [negb fst]; [|exact L1].
  destruct (get_us_shapefile_world w1) as [L2 _].
  destruct (get_us_shapefile w1) as [w2 [shp_path|e]]; cbn [fst] in L2;
    [|cbn [fst]; rewrite L2, L1, <- app_assoc, app_nil_r; reflexivity].
  destruct (read_file_world shp_path w2) as [L3 _].
  destruct (read_file shp_path w2) as [w3 [usa|e]]; cbn [fst] in L3;
    [|cbn [fst]; rewrite L3, L2, L1, <- !app_assoc; reflexivity].
  destruct (draw_map usa df value_column) as [fig|e]; cbn [fst].
  - pose proof (finish_world output_file fig w3) as K.
    destruct (finish output_file fig w3) as [v r]. destruct K as [<- [L4 _]].
    cbn [fst]. rewrite L4, L3, L2, L1, <- !app_assoc. reflexivity.
  - rewrite L3, L2, L1, <- !app_assoc. reflexivity.
Qed.

Lemma plot_us_map_trace (data_path value_column output_file : string) (w : World) :
  trace (plot_us_map data_path value_column output_file) w
  = run_trace data_path value_column output_file w.
Proof. unfold trace. rewrite plot_us_map_log. apply skipn_length_app. Qed.




(** X6.  A run sends one request when the table it read has the 'State'
    column and the cache path is absent, and none otherwise: never
    before the validation, never with a cache in place, never twice. *)
Theorem run_downloads_at_most_once
    (data_path value_column output_file : string) (w : World) :
  downloads (trace (plot_us_map data_path value_column output_file) w)
  = match snd (read_csv data_path w), cache w with
    | Ok df, Absent => if mem "State" (columns df) then 1%nat else 0%nat
    | _, _ => 0%nat
    end.
Proof.
  rewrite plot_us_map_trace. unfold run_trace.
  destruct (read_csv_world data_path w) as [_ [C1 _]].
  destruct (read_csv data_path w) as [w1 [df|e]]; cbn [fst snd] in *.
  2:{ destruct (cache w); reflexivity. }
  destruct (mem "State" (columns df)).
  2:{ destruct (cache w); reflexivity. }
  change (ReadCsv data_path :: ?l) with ([ReadCsv data_path] ++ l).
  rewrite !downloads_app, downloads_provider_trace, C1.
  assert (Z : forall l, (forall e, In e l -> is_download e = false) ->
                        downloads l = 0%nat).
  { intros l H. unfold downloads. induction l as [|a l IH]; [reflexivity|].
    cbn. rewrite (H a (or_introl eq_refl)). apply IH.
    intros e He. apply H. right. exact He. }
  rewrite (Z [ReadCsv data_path]) by (intros e [<-|[]]; reflexivity).
  match goal with
  | |- (_ + (_ + downloads ?l))%nat = _ =>
      rewrite (Z l); [destruct (cache w); reflexivity|]
  end.
  intros e He.
  destruct (get_us_shapefile w1) as [w2 [shp_path|x]]; [|destruct He].
  destruct He as [<-|He]; [reflexivity|].
  destruct (read_file shp_path w2) as [w3 [usa|x]]; [|destruct He].
  destruct (draw_map usa df value_column) as [fig|x]; [|destruct He].
  destruct He as [<-|He]; [reflexivity|].
  destruct (snd (savefig output_file fig w3)); [|destruct He].
  destruct He as [<-|[<-|[]]]; reflexivity.
Qed.

(** X8.  An input file that cannot be read fails the run with the error
    of the read, before the provider is called: the read is the only
    I/O of the run. *)
Theorem unreadable_input_fails_first
    (data_path value_column output_file : string) (w w1 : World) (e : exn) :
  read_csv data_path w = (w1, Raise e) ->
  plot_us_map data_path value_column output_file w = (w1, Raise e)
  /\ trace (plot_us_map data_path value_column output_file) w = [ReadCsv data_path]
  /\ cache w1 = cache w.
Proof.
  intros R. rewrite plot_us_map_trace, plot_us_map_eq. unfold run_trace.
  destruct (read_csv_world data_path w) as [_ [C _]].
  rewrite R in *. cbn [fst] in C. auto.
Qed.

Lemma unreadable_input_fails_first_witness :
  read_csv "other.txt" (Sample.world Absent)
    = (fst (read_csv "other.txt" (Sample.world Absent)), Raise FileNotFoundError)
  /\ trace (plot_us_map "other.txt" "Property_Tax_Burden" "out.png")
           (Sample.world Absent)
     = [ReadCsv "other.txt"].
Proof.
  split; [vm_compute; reflexivity|].
  refine (proj1 (proj2 (unreadable_input_fails_first
                          "other.txt" "Property_Tax_Burden" "out.png"
                          (Sample.world Absent) _ FileNotFoundError _))).
  vm_compute; reflexivity.
Defined.

(** ** Further properties of the join, the colours and the labels *)

Lemma block_single (df : DataFrame) (u : GeoRow) :
  (List.length (matching u df) <= 1)%nat -> map fst (block df u) = [u].
Proof.
  unfold block. destruct (matching u df) as [|r [|r' ms]]; cbn; intros H;
    [reflexivity | reflexivity | lia].
Qed.

(** X10.  When no boundary record is matched by more than one input row,
    the join has exactly one record for each boundary record, in the
    order of the boundary table, and so has the figure one polygon and
    one label for each. *)
Theorem unique_names_join_once
    (usa : GeoDataFrame) (df : DataFrame) (value_column : string) (fig : Figure) :
  (forall u, In u (records usa) -> (List.length (matching u df) <= 1)%nat) ->
  draw_map usa df value_column = Ok fig ->
  map fst (merge usa df) = records usa
  /\ map fst (patches fig) = map geometry (records usa)
  /\ map xy (annotations fig) = map geometry (records usa).
Proof.
  intros Hu H.
  assert (M : map fst (merge usa df) = records usa).
  { rewrite merge_blocks. induction (records usa) as [|u us IH]; [reflexivity|].
    cbn [flat_map]. rewrite map_app, block_single by (apply Hu; left; reflexivity).
    rewrite IH by (intros; apply Hu; right; assumption). reflexivity. }
  destruct (every_polygon_drawn_and_labelled _ _ _ _ H) as [Hp Ha].
  rewrite Hp, Ha. unfold geometry_of. rewrite <- (map_map fst geometry), M. auto.
Qed.

Lemma unique_names_join_once_witness :
  (forall u, In u (records Sample.usa) ->
             (List.length (matching u Sample.df) <= 1)%nat)
  /\ map fst (merge Sample.usa Sample.df) = records Sample.usa.
Proof.
  assert (H : forall u, In u (records Sample.usa) ->
                        (List.length (matching u Sample.df) <= 1)%nat).
  { intros u [<-|[<-|[<-|[]]]]; vm_compute; lia. }
  split; [exact H|].
  refine (proj1 (unique_names_join_once
                   Sample.usa Sample.df "Property_Tax_Burden" _ H _)).
  vm_compute; reflexivity.
Defined.

Lemma cmap_rgba (x : option Q) : exists r g b a, cmap x = RGBA r g b a.
Proof.
  unfold cmap, lut. destruct x as [x|]; [|eauto].
  repeat match goal with
         | |- context [if ?b then _ else _] => destruct b
         end; eauto.
Qed.

Lemma shade_present (df : DataFrame) (value_column : string) (v : Q) :
  exists t, shade (scale df value_column) (Some v) = cmap t.
Proof.
  pose proof (color_of_scale df value_column (Some v)) as H.
  unfold color_of in H. destruct (Normalize_call _ v) as [t|e]; cbn in H.
  - exists t. congruence.
  - discriminate.
Qed.

Lemma string_of_uint_digits (d : Decimal.uint) :
  all_digits (NilEmpty.string_of_uint d) = true.
Proof. induction d; cbn; auto. Qed.

Lemma digits_shape (n : Z) : all_digits (digits n) = true /\ digits n <> "".
Proof.
  unfold digits, NilZero.string_of_uint.
  destruct (N.to_uint (Z.to_N n)) as [|d|d|d|d|d|d|d|d|d|d]; cbn;
    (split; [try reflexivity; apply string_of_uint_digits | discriminate]).
Qed.

Lemma two_digits (k : nat) :
  (k < 100)%nat ->
  let frac := ((if (Z.of_nat k <? 10)%Z then "0" else "")
               ++ digits (Z.of_nat k))%string in
  all_digits frac = true /\ String.length frac = 2%nat.
Proof.
  intros H.
  do 100 (destruct k as [|k]; [vm_compute; split; reflexivity|]).
  lia.
Qed.

Lemma format_2f_two_decimals (q : Q) : two_decimals (format_2f q).
Proof.
  unfold format_2f.
  set (n := round_half_even (Qabs q * 100)).
  assert (B : (0 <= n mod 100 < 100)%Z) by (apply Z.mod_pos_bound; lia).
  destruct (two_digits (Z.to_nat (n mod 100))) as [D L]; [lia|].
  rewrite Z2Nat.id in D, L by lia.
  destruct (digits_shape (n / 100)) as [W N].
  exists (if Qlt_bool q 0 then "-" else "")%string, (digits (n / 100)),
         ((if (n mod 100 <? 10)%Z then "0" else "") ++ digits (n mod 100))%string.
  split; [reflexivity|].
  split; [destruct (Qlt_bool q 0); auto|].
  auto.
Qed.

(** X11.  A joined record is drawn grey exactly when it has no value,
    that is when no row is attached to it or the metric cell of its row
    is empty, and exactly then its label is the code alone; with a
    value, the label is the code, a line break and a number written with
    two decimals, in bold white. *)
Theorem grey_iff_no_value
    (usa : GeoDataFrame) (df : DataFrame) (value_column : string) (fig : Figure) :
  draw_map usa df value_column = Ok fig ->
  forall i row,
    nth_error (merge usa df) i = Some row ->
    exists c a,
      nth_error (patches fig) i = Some (geometry (fst row), c)
      /\ nth_error (annotations fig) i = Some a
      /\ (c = grey <-> value_of value_column row = None)
      /\ (a = code_only (fst row) <-> value_of value_column row = None)
      /\ (value_of value_column row <> None ->
          exists shown,
            a = mkAnnotation (STUSPS (fst row) ++ newline ++ shown)
                             (geometry (fst row)) "bold" "white"
            /\ two_decimals shown).
Proof.
  intros H i row Hi. apply draw_map_ok in H. destruct H as [-> _].
  unfold figure_of. cbn [patches annotations].
  exists (shade (scale df value_column) (value_of value_column row)),
         (label value_column row).
  rewrite !nth_error_map, Hi. cbn [option_map].
  split; [reflexivity|]. split; [reflexivity|].
  unfold label, code_only.
  destruct (value_of value_column row) as [v|].
  - destruct (shade_present df value_column v) as [t ->].
    destruct (cmap_rgba t) as [r [g [b [a ->]]]].
    repeat split; try discriminate.
    intros _. exists (format_2f v). split; [reflexivity|].
    apply format_2f_two_decimals.
  - repeat split; try reflexivity. intros X. contradiction.
Qed.

(** X11 at the sample tables: Texas has a value, and its label is "TX",
    a line break and "1.60". *)
Lemma grey_iff_no_value_witness :
  draw_map Sample.usa Sample.df "Property_Tax_Burden"
    = Ok (figure_of Sample.usa Sample.df "Property_Tax_Burden")
  /\ nth_error (annotations (figure_of Sample.usa Sample.df "Property_Tax_Burden")) 1
     = Some (mkAnnotation ("TX" ++ newline ++ "1.60") (geometry Sample.texas)
                          "bold" "white")
  /\ exists c a,
       nth_error (patches (figure_of Sample.usa Sample.df "Property_Tax_Burden")) 1
         = Some (geometry Sample.texas, c)
       /\ nth_error (annotations
                       (figure_of Sample.usa Sample.df "Property_Tax_Burden")) 1
          = Some a
       /\ (c = grey <-> Some (16 # 10) = None)
       /\ (a = code_only Sample.texas <-> Some (16 # 10) = None)
       /\ (Some (16 # 10) <> None ->
           exists shown,
             a = mkAnnotation ("TX" ++ newline ++ shown)
                              (geometry Sample.texas) "bold" "white"
             /\ two_decimals shown).
Proof.
  split; [vm_compute; reflexivity|].
  split; [vm_compute; reflexivity|].
  apply (grey_iff_no_value Sample.usa Sample.df "Property_Tax_Burden"
                           _ eq_refl 1%nat
                           (Sample.texas,
                            Some (Sample.data_row "Texas" (16 # 10)))).
  reflexivity.
Defined.

(** X12.  When every boundary record is matched by a row and every row
    has a metric value, no region is grey and every label is bold
    white. *)
Theorem all_matched_no_grey
    (usa : GeoDataFrame) (df : DataFrame) (value_column : string) (fig : Figure) :
  draw_map usa df value_column = Ok fig ->
  (forall u, In u (records usa) -> matching u df <> []) ->
  (forall r, In r (rows df) -> lookup value_column (cells r) <> None) ->
  (forall p c, In (p, c) (patches fig) -> c <> grey)
  /\ (forall a, In a (annotations fig) ->
                fontweight a = "bold" /\ fontcolor a = "white").
Proof.
  intros H Hm Hv.
  pose proof (fun u r => attached_row_plain_metric usa df value_column fig u r H)
    as Hplain.
  apply draw_map_ok in H. destruct H as [-> _].
  unfold figure_of. cbn [patches annotations].
  assert (V : forall row, In row (merge usa df) ->
                          exists v, value_of value_column row = Some v).
  { intros [u o] Hrow. pose proof Hrow as Hrow0.
    apply merge_In in Hrow. destruct Hrow as [Hu Hb].
    unfold block in Hb. specialize (Hm u Hu).
    destruct (matching u df) as [|r0 ms] eqn:E; [congruence|].
    apply in_map_iff in Hb. destruct Hb as [r [Er Hr]]. injection Er as <-.
    assert (In r (rows df)).
    { rewrite <- E in Hr. unfold matching in Hr. apply filter_In in Hr. tauto. }
    unfold value_of, cell_value. cbn [snd]. rewrite (Hplain u r Hrow0).
    destruct (lookup value_column (cells r)) as [v|] eqn:L; [eauto|].
    exfalso. exact (Hv r H L). }
  split.
  - intros p c Hc. apply in_map_iff in Hc. destruct Hc as [row [E Hrow]].
    destruct (V row Hrow) as [v Hval]. rewrite Hval in E.
    destruct (shade_present df value_column v) as [t Ht]. rewrite Ht in E.
    destruct (cmap_rgba t) as [r [g [b [a Hc]]]]. rewrite Hc in E.
    injection E as _ <-. discriminate.
  - intros a Ha. apply in_map_iff in Ha. destruct Ha as [row [E Hrow]].
    destruct (V row Hrow) as [v Hval]. unfold label in E. rewrite Hval in E.
    subst a. split; reflexivity.
Qed.

Lemma all_matched_no_grey_witness :
  draw_map Sample.usa matched_df "Property_Tax_Burden"
    = Ok (figure_of Sample.usa matched_df "Property_Tax_Burden")
  /\ (forall u, In u (records Sample.usa) -> matching u matched_df <> [])
  /\ (forall r, In r (rows matched_df) ->
                lookup "Property_Tax_Burden" (cells r) <> None)
  /\ forall p c,
       In (p, c) (patches (figure_of Sample.usa matched_df "Property_Tax_Burden")) ->
       c <> grey.
Proof.
  assert (D : draw_map Sample.usa matched_df "Property_Tax_Burden"
              = Ok (figure_of Sample.usa matched_df "Property_Tax_Burden"))
    by (vm_compute; reflexivity).
  assert (Hm : forall u, In u (records Sample.usa) -> matching u matched_df <> []).
  { intros u [<-|[<-|[<-|[]]]]; vm_compute; discriminate. }
  assert (Hv : forall r, In r (rows matched_df) ->
                         lookup "Property_Tax_Burden" (cells r) <> None).
  { intros r [<-|[<-|[<-|[]]]]; vm_compute; discriminate. }
  split; [exact D|]. split; [exact Hm|]. split; [exact Hv|].
  exact (proj1 (all_matched_no_grey Sample.usa matched_df "Property_Tax_Burden"
                                    _ D Hm Hv)).
Defined.

Lemma replace_length (old new : ascii) (s : string) :
  String.length (Py.replace old new s) = String.length s.
Proof. induction s as [|c s IH]; cbn; auto. Qed.

Lemma replace_get (old new : ascii) (s : string) (n : nat) :
  String.get n (Py.replace old new s)
  = option_map (fun c => if Ascii.eqb c old then new else c) (String.get n s).
Proof.
  revert n. induction s as [|c s IH]; intros n; cbn; [reflexivity|].
  destruct n as [|n]; [reflexivity | apply IH].
Qed.

(** X13.  The colour-bar label is the name of the metric column with
    every underscore turned into a space and every other character in
    its place, and the title is that label followed by " by State". *)
Theorem title_and_label_from_column
    (usa : GeoDataFrame) (df : DataFrame) (value_column : string) (fig : Figure) :
  draw_map usa df value_column = Ok fig ->
  title fig = (cb_label (colorbar fig) ++ " by State")%string
  /\ String.length (cb_label (colorbar fig)) = String.length value_column
  /\ forall n,
       String.get n (cb_label (colorbar fig)) <> Some "_"%char
       /\ match String.get n value_column with
          | Some c =>
              String.get n (cb_label (colorbar fig))
              = Some (if Ascii.eqb c "_" then " "%char else c)
          | None => String.get n (cb_label (colorbar fig)) = None
          end.
Proof.
  intros H. apply draw_map_ok in H. destruct H as [-> _].
  unfold figure_of, humanize. cbn [title colorbar cb_label].
  split; [reflexivity|]. split; [apply replace_length|].
  intros n. rewrite replace_get.
  destruct (String.get n value_column) as [c|]; cbn [option_map].
  - split; [|reflexivity].
    destruct (Ascii.eqb c "_") eqn:E; [discriminate|].
    intros X. injection X as ->. rewrite Ascii.eqb_refl in E. discriminate.
  - split; [discriminate | reflexivity].
Qed.

Lemma title_and_label_from_column_witness :
  draw_map Sample.usa Sample.df "Property_Tax_Burden"
    = Ok (figure_of Sample.usa Sample.df "Property_Tax_Burden")
  /\ title (figure_of Sample.usa Sample.df "Property_Tax_Burden")
     = (cb_label (colorbar (figure_of Sample.usa Sample.df "Property_Tax_Burden"))
        ++ " by State")%string.
Proof.
  split; [vm_compute; reflexivity|].
  apply (title_and_label_from_column Sample.usa Sample.df "Property_Tax_Burden").
  vm_compute; reflexivity.
Defined.

(** ** The colours of the regions with a value *)

Lemma scaled_range (x : Q) : 0 <= x -> x <= 1 -> 0 <= x * 256 /\ x * 256 <= 256.
Proof.
  intros H0 H1. split.
  - apply Qmult_le_0_compat; [exact H0 | discriminate].
  - setoid_replace 256 with (1 * 256) at 2 by ring.
    apply Qmult_le_compat_r; [exact H1 | discriminate].
Qed.

Lemma floor_below_size (xa : Q) :
  0 <= xa -> xa <= 256 -> ~ xa == 256 ->
  (0 <= Qfloor xa < 256)%Z.
Proof.
  intros H0 H1 Hne. split.
  - change 0%Z with (Qfloor 0). apply Qfloor_resp_le, H0.
  - rewrite Zlt_Qlt. apply Qle_lt_trans with xa; [apply Qfloor_le|].
    apply Qle_lteq in H1. destruct H1 as [H1|H1]; [exact H1 | contradiction].
Qed.

Lemma cmap_unit (x : Q) :
  0 <= x -> x <= 1 ->
  cmap (Some x) = lut (table_index x) /\ (table_index x < 256)%nat.
Proof.
  intros H0 H1. destruct (scaled_range x H0 H1) as [A B].
  unfold cmap, table_index.
  change (inject_Z (Z.of_nat lut_size)) with 256.
  change (lut_size - 1)%nat with 255%nat.
  destruct (Qeq_bool (x * 256) 256) eqn:E; [split; [reflexivity | lia]|].
  apply Qeq_bool_neq in E.
  assert (L : Qlt_bool (x * 256) 0 = false).
  { unfold Qlt_bool. apply Qle_bool_iff in A. rewrite A. reflexivity. }
  assert (G : Qle_bool 256 (x * 256) = false).
  { destruct (Qle_bool 256 (x * 256)) eqn:G; [|reflexivity].
    apply Qle_bool_iff in G. exfalso. apply E. apply Qle_antisym; assumption. }
  rewrite L, G. split; [reflexivity|].
  destruct (floor_below_size (x * 256) A B E) as [F0 F1].
  apply Nat2Z.inj_lt. rewrite Z2Nat.id by exact F0. exact F1.
Qed.


Lemma table_index_comp (x y : Q) : x == y -> table_index x = table_index y.
Proof.
  intros E. unfold table_index.
  assert (E' : x * 256 == y * 256) by (rewrite E; reflexivity).
  rewrite (Qeqb_comp _ _ E' 256 256 (Qeq_refl _)).
  rewrite (Qfloor_comp _ _ E'). reflexivity.
Qed.


Lemma position_spec (norm : Normalize) (lo hi q : Q) :
  vmin norm = Some lo -> vmax norm = Some hi -> lo <= hi ->
  (Qeq_bool lo hi = true /\ norm_plan norm q = Fill0 /\ position norm q = 0)
  \/ (lo < hi /\ norm_plan norm q = Divide (q - lo) (hi - lo)
      /\ position norm q = (q - lo) / (hi - lo)).
Proof.
  intros Hlo Hhi Hle. unfold position, norm_plan. rewrite Hlo, Hhi.
  destruct (Qeq_bool lo hi) eqn:E; [left; auto|]. right.
  apply Qeq_bool_neq in E.
  assert (L : lo < hi).
  { apply Qle_lteq in Hle. destruct Hle as [H|H]; [exact H | contradiction]. }
  unfold Qlt_bool. apply Qle_bool_iff in Hle. rewrite Hle. cbn [negb]. auto.
Qed.

Lemma shade_position (norm : Normalize) (lo hi q : Q) :
  vmin norm = Some lo -> vmax norm = Some hi -> lo <= hi ->
  shade norm (Some q) = cmap (Some (position norm q)).
Proof.
  intros Hlo Hhi Hle.
  unfold shade, color_of, Normalize_call.
  destruct (position_spec norm lo hi q Hlo Hhi Hle) as [[_ [-> ->]]|[_ [-> ->]]];
    reflexivity.
Qed.






(** X15.  On a scale with distinct bounds, a joined record whose value
    is the minimum of the column is drawn in the first stop of the
    gradient, "#85011C", and one whose value is the maximum in the last
    stop, "#172378". *)
Theorem extremes_get_end_colours
    (usa : GeoDataFrame) (df : DataFrame) (value_column : string) (fig : Figure)
    (lo hi : Q) :
  draw_map usa df value_column = Ok fig ->
  vmin (cb_norm (colorbar fig)) = Some lo ->
  vmax (cb_norm (colorbar fig)) = Some hi ->
  lo < hi ->
  forall i row q,
    nth_error (merge usa df) i = Some row ->
    value_of value_column row = Some q ->
    (q == lo -> nth_error (patches fig) i = Some (geometry (fst row), low_end))
    /\ (q == hi -> nth_error (patches fig) i = Some (geometry (fst row), high_end)).
Proof.
  intros H Hlo Hhi L i row q Hi Hq.
  apply draw_map_ok in H. destruct H as [-> _].
  unfold figure_of in *. cbn [patches colorbar cb_norm] in *.
  rewrite nth_error_map, Hi. cbn [option_map]. rewrite Hq.
  assert (Hle : lo <= hi) by (apply Qlt_le_weak, L).
  rewrite (shade_position _ lo hi) by assumption.
  assert (D : ~ hi - lo == 0).
  { intros Z. apply (Qlt_irrefl lo). setoid_replace lo with (hi - (hi - lo)) at 2 by ring.
    rewrite Z. setoid_replace (hi - 0) with hi by ring. exact L. }
  destruct (position_spec (scale df value_column) lo hi q Hlo Hhi Hle)
    as [[E _]|[_ [_ P]]].
  { apply Qeq_bool_iff in E. rewrite E in L. exfalso. exact (Qlt_irrefl _ L). }
  split; intros E.
  - assert (Z : position (scale df value_column) q == 0).
    { rewrite P, E. field. exact D. }
    destruct (cmap_unit (position (scale df value_column) q)) as [-> _].
    + rewrite Z. apply Qle_refl.
    + rewrite Z. discriminate.
    + rewrite (table_index_comp _ 0 Z). reflexivity.
  - assert (Z : position (scale df value_column) q == 1).
    { rewrite P, E. field. exact D. }
    destruct (cmap_unit (position (scale df value_column) q)) as [-> _].
    + rewrite Z. discriminate.
    + rewrite Z. apply Qle_refl.
    + rewrite (table_index_comp _ 1 Z). reflexivity.
Qed.

Lemma extremes_get_end_colours_witness :
  draw_map Sample.usa Sample.df "Property_Tax_Burden"
    = Ok (figure_of Sample.usa Sample.df "Property_Tax_Burden")
  /\ (76 # 100) < (16 # 10)
  /\ nth_error (patches (figure_of Sample.usa Sample.df "Property_Tax_Burden")) 1
     = Some (geometry Sample.texas, high_end).
Proof.
  split; [vm_compute; reflexivity|].
  assert (L : (76 # 100) < (16 # 10)) by reflexivity.
  split; [exact L|].
  refine (proj2 (extremes_get_end_colours
                   Sample.usa Sample.df "Property_Tax_Burden" _
                   (76 # 100) (16 # 10) eq_refl eq_refl eq_refl L 1%nat
                   (Sample.texas, Some (Sample.data_row "Texas" (16 # 10)))
                   (16 # 10) eq_refl eq_refl) _).
  reflexivity.
Defined.

